(** * Ihmacs editing core: buffer, key decoder and delimiter movement.

    A shallow embedding of [buff.py], [controller.py] and the movement
    commands of [basic_editing.py].  Python integers are unbounded, so they
    are [Z]; a Python [str] is a sequence of characters, here [list ascii];
    every method that mutates [self] becomes a function returning the new
    object next to its return value. *)

From Stdlib Require Import ZArith String Ascii List Bool Lia.
Import ListNotations.
Open Scope Z_scope.

(** ** Python sequence operations used by the sources *)

Module Py.

Definition str := list ascii.

(** String literals of the sources, written as Rocq strings. *)
Definition s (lit : string) : str := list_ascii_of_string lit.

Section Seq.
Context {A : Type}.

(** [len(t)] *)
Definition len (t : list A) : Z := Z.of_nat (List.length t).

(** How a slice bound is brought into [0, len]: a negative bound counts
    from the end, and both ends saturate. *)
Definition norm_index (n i : Z) : Z :=
  if i <? 0 then Z.max 0 (i + n) else Z.min i n.

(** [t[lo:hi]]; an omitted bound is [None]. *)
Definition slice (t : list A) (lo hi : option Z) : list A :=
  let n := len t in
  let a := match lo with None => 0 | Some i => norm_index n i end in
  let b := match hi with None => n | Some j => norm_index n j end in
  firstn (Z.to_nat (b - a)) (skipn (Z.to_nat a) t).

(** [t[i]]; [None] stands for [IndexError]. *)
Definition index (t : list A) (i : Z) : option A :=
  let n := len t in
  let j := if i <? 0 then i + n else i in
  if (0 <=? j) && (j <? n) then nth_error t (Z.to_nat j) else None.
End Seq.

(** [sep.join(parts)] with the empty separator, the only one the sources use. *)
Definition join_empty (parts : list str) : str := concat parts.

End Py.

(** ** buff.py *)

Module Buff.

Record Buffer := mkBuffer {
  text : Py.str;
  modified : bool;
  point : Z;
  mark : Z;
  name : Py.str;
  path : Py.str;
  display_line : Z
}.

(** Attribute assignments [self._text = v], [self._point = v], ... *)
Definition with_text (self : Buffer) (v : Py.str) : Buffer :=
  mkBuffer v (modified self) (point self) (mark self)
           (name self) (path self) (display_line self).
Definition with_point (self : Buffer) (v : Z) : Buffer :=
  mkBuffer (text self) (modified self) v (mark self)
           (name self) (path self) (display_line self).
Definition with_mark (self : Buffer) (v : Z) : Buffer :=
  mkBuffer (text self) (modified self) (point self) v
           (name self) (path self) (display_line self).
Definition with_display_line (self : Buffer) (v : Z) : Buffer :=
  mkBuffer (text self) (modified self) (point self) (mark self)
           (name self) (path self) v.

(** [Buffer.__init__(name, path)] *)
Definition init (name path : Py.str) : Buffer :=
  mkBuffer [] false 0 0 name path 0.

(** [Buffer._normalize_pos] *)
Definition _normalize_pos (self : Buffer) (pos : Z) : Z :=
  Z.max 0 (Z.min pos (Py.len (text self))).

(** [Buffer.set_point] *)
Definition set_point (self : Buffer) (pos : Z) : Buffer :=
  let pos := _normalize_pos self pos in
  with_point self pos.

(** [Buffer.set_mark] *)
Definition set_mark (self : Buffer) (pos : Z) : Buffer :=
  let pos := _normalize_pos self pos in
  with_mark self pos.

(** [Buffer.insert], with the tuple [args]: the returned pair is the
    method's return value and the buffer after its side effects. *)
Definition insert (self : Buffer) (args : list Py.str) : Py.str * Buffer :=
  let point := point self in
  let mark := mark self in
  let insert_text := Py.join_empty args in
  let insert_len := Py.len insert_text in
  let self := with_text self (Py.slice (text self) None (Some point)
                              ++ insert_text
                              ++ Py.slice (text self) (Some point) None) in
  let self := with_point self (point + insert_len) in
  let self := if mark >? point then with_mark self (mark + insert_len)
              else self in
  (insert_text, self).

(** [Buffer.delete_char(chars=1)] *)
Definition delete_char (self : Buffer) (chars : Z) : Py.str * Buffer :=
  let points := (point self, _normalize_pos self (point self + chars)) in
  let start := Z.min (fst points) (snd points) in
  let end_ := Z.max (fst points) (snd points) in
  let deleted_text := Py.slice (text self) (Some start) (Some end_) in
  let deleted_len := Py.len deleted_text in
  let self := with_text self (Py.slice (text self) None (Some start)
                              ++ Py.slice (text self) (Some end_) None) in
  let self := if chars <? 0 then with_point self start else self in
  let mark := mark self in
  let self := if (start <=? mark) && (mark <=? end_)
              then with_mark self start
              else if mark >? end_ then with_mark self (mark - deleted_len)
              else self in
  (deleted_text, self).

(** [Buffer.delete_region] *)
Definition delete_region (self : Buffer) : Py.str * Buffer :=
  let start := Z.min (point self) (mark self) in
  let end_ := Z.max (point self) (mark self) in
  let deleted_text := Py.slice (text self) (Some start) (Some end_) in
  let self := with_text self (Py.slice (text self) None (Some start)
                              ++ Py.slice (text self) (Some end_) None) in
  let self := with_point self start in
  let self := with_mark self start in
  (deleted_text, self).

End Buff.

(** The two members of [Buffer] that [controller.py] uses and [buff.py]
    does not define. *)
Module BuffView.
Import Buff.

(** Modelled from the spec: [Buffer.line], absent from [buff.py].  The spec
    names a "derived current-line index" of point, the index of the line
    that contains it: the number of newlines before point. *)
Definition line (self : Buffer) : Z :=
  Py.len (filter (Ascii.eqb "010"%char)
                 (Py.slice (text self) None (Some (point self)))).

(** Modelled from the spec: [Buffer.scroll_buffer], absent from [buff.py].
    The spec says scrolling adjusts [displayLine] by the count given, a
    positive count revealing later lines. *)
Definition scroll_buffer (self : Buffer) (lines : Z) : Buffer :=
  with_display_line self (display_line self + lines).

End BuffView.

(** ** The curses window, as far as [read_key] uses it

    The terminal is outside the repository.  A window is the queue of raw
    codes that are ready to be read and its delay mode.  [getch] in blocking
    mode on an empty queue never returns ([None]); in no-delay mode it
    returns -1 at once. *)

Module Curses.

Record Window := mkWindow {
  pending : list Z;
  nodelay_mode : bool
}.

Definition getch (w : Window) : option (Z * Window) :=
  match pending w with
  | c :: rest => Some (c, mkWindow rest (nodelay_mode w))
  | [] => if nodelay_mode w then Some (-1, w) else None
  end.

Definition nodelay (w : Window) (flag : bool) : Window :=
  mkWindow (pending w) flag.

(** [curses.KEY_MIN], the smallest keypad code. *)
Definition KEY_MIN : Z := 257.

(** [curses.unctrl(c)] as bytes: a control code prints as a caret and the
    code plus 64, and 127 as caret and question mark. *)
Definition unctrl (c : Z) : list Z :=
  if (0 <=? c) && (c <? 32) then [94; c + 64]
  else if c =? 127 then [94; 63]
  else [c].

End Curses.

(** [chr] and [str.lower] on the Latin-1 range, which is all [read_key]
    ever passes to them. *)
Module PyChar.

Definition chr (n : Z) : Py.str := [ascii_of_N (Z.to_N n)].

Definition lower_char (c : ascii) : ascii :=
  let n := Z.of_N (N_of_ascii c) in
  if ((65 <=? n) && (n <=? 90))
     || ((192 <=? n) && (n <=? 222) && negb (n =? 215))
  then ascii_of_N (Z.to_N (n + 32)) else c.

Definition lower (t : Py.str) : Py.str := map lower_char t.

Definition str_eqb (a b : Py.str) : bool :=
  if list_eq_dec ascii_dec a b then true else false.

End PyChar.

(** ** Compiled regular expressions, as far as the movement commands use them

    A compiled pattern is what [finditer] makes of a text: the spans of its
    matches, left to right. *)

Module Re.

Record Match := mkMatch { start : Z; end_ : Z }.

Definition Pattern := Py.str -> list Match.

Definition finditer (p : Pattern) (text : Py.str) : list Match := p text.

(** The pattern [[c]+] for a class of characters [c]: its matches are the
    maximal runs of characters in the class. *)
Fixpoint runs_from (cls : ascii -> bool) (t : Py.str) (i : Z)
         (opened : option Z) : list Match :=
  match t with
  | [] => match opened with Some a => [mkMatch a i] | None => [] end
  | c :: rest =>
      if cls c
      then runs_from cls rest (i + 1)
                     (Some (match opened with Some a => a | None => i end))
      else match opened with
           | Some a => mkMatch a i :: runs_from cls rest (i + 1) None
           | None => runs_from cls rest (i + 1) None
           end
  end.

Definition one_or_more (cls : ascii -> bool) : Pattern :=
  fun t => runs_from cls t 0 None.

End Re.

(** ** The global editor state

    The [Ihmacs] class is outside the three modules; these are the attributes
    they read and write.  The controller's [window] and [keychord] are the
    very objects of the global state, so they live here once. *)

Module State.

Record Ihmacs := mkIhmacs {
  active_buff : Buff.Buffer;
  keychord : list Py.str;
  window : Curses.Window;
  term_size : Z * Z;
  echo : Py.str;
  end_session : bool
}.

Definition with_active_buff (st : Ihmacs) (b : Buff.Buffer) : Ihmacs :=
  mkIhmacs b (keychord st) (window st) (term_size st) (echo st)
           (end_session st).
Definition with_keychord (st : Ihmacs) (k : list Py.str) : Ihmacs :=
  mkIhmacs (active_buff st) k (window st) (term_size st) (echo st)
           (end_session st).
Definition with_window (st : Ihmacs) (w : Curses.Window) : Ihmacs :=
  mkIhmacs (active_buff st) (keychord st) w (term_size st) (echo st)
           (end_session st).
Definition with_echo (st : Ihmacs) (e : Py.str) : Ihmacs :=
  mkIhmacs (active_buff st) (keychord st) (window st) (term_size st) e
           (end_session st).

End State.

(** ** controller.py *)

Module Controller.
Import Buff BuffView Curses PyChar State.

(** Sequencing of steps that may never return (a blocking read on an empty
    queue) or raise. *)
Definition bind {A B : Type} (m : option A) (k : A -> option B) : option B :=
  match m with Some a => k a | None => None end.

Notation "' p <- m ;; k" := (bind m (fun p => k))
  (at level 61, p pattern, m at next level, right associativity).
Notation "x <- m ;; k" := (bind m (fun x => k))
  (at level 61, m at next level, right associativity).

Section ReadKey.

(** [curses.keyname(c).decode("utf-8")], the terminal's table of keypad
    names. *)
Variable keyname : Z -> Py.str.

(** The branch [1 <= facekey <= 26] and the branch [28 <= facekey <= 31]
    share this body: [chr(curses.unctrl(facekey)[1]).lower()]. *)
Definition extract_letter (facekey : Z) : option Py.str :=
  b <- Py.index (unctrl facekey) 1 ;;
  Some (lower (chr b)).

(** Lines 88-118 of [read_key]: the chain that turns the raw face key into
    its control prefix and its name. *)
Definition handle_key_characters (facekey : Z) : option (Py.str * Py.str) :=
  let control := Py.s "" in
  if facekey =? 0 then Some (Py.s "C-", Py.s " ")
  else if (1 <=? facekey) && (facekey <=? 26) then
    l <- extract_letter facekey ;; Some (Py.s "C-", l)
  else if facekey =? 27 then Some (control, Py.s "ESC")
  else if (28 <=? facekey) && (facekey <=? 31) then
    l <- extract_letter facekey ;; Some (Py.s "C-", l)
  else if (32 <=? facekey) && (facekey <=? 126) then
    Some (control, chr facekey)
  else if facekey =? 127 then Some (control, Py.s "DEL")
  else if (128 <=? facekey) && (facekey <=? 255) then
    Some (control, chr facekey)
  else if facekey >=? KEY_MIN then
    let facekey := keyname facekey in
    Some (control,
          if str_eqb facekey (Py.s "KEY_BACKSPACE") then Py.s "DEL"
          else facekey)
  else Some (control, Py.s "ESC").

(** [Controller.read_key] *)
Definition read_key (ihmacs_state : Ihmacs) : option Ihmacs :=
  let window := window ihmacs_state in
  let keychord := keychord ihmacs_state in
  let key := [] in
  '(char, window) <- getch window ;;
  let key := key ++ [char] in
  '(key, window) <-
    (if char =? 27 then
       let window := nodelay window true in
       '(char, window) <- getch window ;;
       Some (key ++ [char], window)
     else Some (key, window)) ;;
  let window := nodelay window false in
  key0 <- Py.index key 0 ;;
  '(meta, facekey) <-
    (if key0 =? 27 then
       key1 <- Py.index key 1 ;; Some (Py.s "M-", key1)
     else Some (Py.s "", key0)) ;;
  '(control, facekey) <- handle_key_characters facekey ;;
  Some (with_keychord (with_window ihmacs_state window)
                      (keychord ++ [control ++ meta ++ facekey])).

End ReadKey.

(** [Controller._ensure_valid_point] *)
Definition _ensure_valid_point (ihmacs_state : Ihmacs) : Ihmacs :=
  let buff := active_buff ihmacs_state in
  let '(term_lines, _) := term_size ihmacs_state in
  let view_min := display_line buff in
  let view_max := view_min + term_lines - 2 in
  let current_line := line buff in
  let buff := if current_line <? view_min
              then scroll_buffer buff (current_line - view_min)
              else buff in
  let buff := if current_line >=? view_max
              then scroll_buffer buff (current_line - view_max + 1)
              else buff in
  with_active_buff ihmacs_state buff.

(** [Controller.run_edit]: a command is a function of the global state. *)
Definition run_edit (ihmacs_state : Ihmacs) (func : Ihmacs -> Ihmacs)
  : Ihmacs :=
  let ihmacs_state := func ihmacs_state in
  _ensure_valid_point ihmacs_state.

(** [Controller.echo] *)
Definition echo (ihmacs_state : Ihmacs) (string : Py.str) : Ihmacs :=
  with_echo ihmacs_state string.

End Controller.

(** ** basic_editing.py: movement by delimiter *)

Module BasicEditing.
Import Buff State Re.

(** [point_max] *)
Definition point_max (ihmacs_state : Ihmacs) : Z :=
  let buff := active_buff ihmacs_state in
  let text := text buff in
  Py.len text.

(** [point_min] *)
Definition point_min (ihmacs_state : Ihmacs) : Z := 0.

(** [forward_by_delimiter] and [backward_by_delimiter] call each other on a
    negative count; [depth] bounds the nesting of calls, and [None] is a
    chain of calls deeper than that. *)
Fixpoint forward_by_delimiter (depth : nat) (ihmacs_state : Ihmacs)
         (delimiter_regex : Pattern) (num : Z) {struct depth}
  : option Ihmacs :=
  match depth with
  | O => None
  | S depth =>
      if num =? 0 then Some ihmacs_state
      else if num <? 0 then
        backward_by_delimiter depth ihmacs_state delimiter_regex (- num)
      else
        let buff := active_buff ihmacs_state in
        let text := text buff in
        let point := point buff in
        let delimiters := finditer delimiter_regex text in
        let unit_ends :=
          map start (filter (fun i => start i >? point) delimiters) in
        let new_point :=
          match Py.index unit_ends (num - 1) with
          | Some v => v
          | None => point_max ihmacs_state
          end in
        Some (with_active_buff ihmacs_state (set_point buff new_point))
  end
with backward_by_delimiter (depth : nat) (ihmacs_state : Ihmacs)
         (delimiter_regex : Pattern) (num : Z) {struct depth}
  : option Ihmacs :=
  match depth with
  | O => None
  | S depth =>
      if num =? 0 then Some ihmacs_state
      else if num <? 0 then
        forward_by_delimiter depth ihmacs_state delimiter_regex (- num)
      else
        let buff := active_buff ihmacs_state in
        let text := text buff in
        let point := point buff in
        let delimiters := finditer delimiter_regex text in
        let unit_starts :=
          map end_ (filter (fun i => end_ i <? point) delimiters) in
        let new_point :=
          match Py.index unit_starts (- num) with
          | Some v => v
          | None => point_min ihmacs_state
          end in
        Some (with_active_buff ihmacs_state (set_point buff new_point))
  end.

End BasicEditing.

(** ** basic_editing.py: the commands built on the buffer primitives *)

Module Commands.
Import Buff State Re BasicEditing.

(** [self_insert_command]: [keychord[-1]] raises on an empty keychord. *)
Definition self_insert_command (ihmacs_state : Ihmacs) : option Ihmacs :=
  let buff := active_buff ihmacs_state in
  let keychord := keychord ihmacs_state in
  match Py.index keychord (-1) with
  | Some char =>
      Some (with_active_buff ihmacs_state (snd (Buff.insert buff [char])))
  | None => None
  end.

(** [insert] *)
Definition insert (ihmacs_state : Ihmacs) (string : Py.str) : Ihmacs :=
  let buff := active_buff ihmacs_state in
  with_active_buff ihmacs_state (snd (Buff.insert buff [string])).

(** [delete_char] *)
Definition delete_char (ihmacs_state : Ihmacs) (num : Z) : Ihmacs :=
  let buff := active_buff ihmacs_state in
  with_active_buff ihmacs_state (snd (Buff.delete_char buff num)).

(** [backwards_delete_char] *)
Definition backwards_delete_char (ihmacs_state : Ihmacs) (num : Z)
  : Ihmacs :=
  let buff := active_buff ihmacs_state in
  with_active_buff ihmacs_state (snd (Buff.delete_char buff (- num))).

(** [newline]: the loop [for _ in range(num)] runs [num] times, and not at
    all for a count below 1. *)
Definition newline (ihmacs_state : Ihmacs) (num : Z) : Ihmacs :=
  Nat.iter (Z.to_nat num)
           (fun ihmacs_state => insert ihmacs_state ["010"%char])
           ihmacs_state.

(** [forward_char] *)
Definition forward_char (ihmacs_state : Ihmacs) (num : Z) : Ihmacs :=
  let buff := active_buff ihmacs_state in
  let point := point buff in
  with_active_buff ihmacs_state (set_point buff (point + num)).

(** [backward_char] *)
Definition backward_char (ihmacs_state : Ihmacs) (num : Z) : Ihmacs :=
  let buff := active_buff ihmacs_state in
  let point := point buff in
  with_active_buff ihmacs_state (set_point buff (point - num)).

(** The compiled pattern of one or more newlines that the line commands
    build. *)
Definition newline_regex : Pattern :=
  one_or_more (fun c => Ascii.eqb c "010"%char).

(** [move_end_of_line]; [depth] bounds the nesting of calls as in
    [forward_by_delimiter], which it calls with the default count 1. *)
Definition move_end_of_line (depth : nat) (ihmacs_state : Ihmacs)
  : option Ihmacs :=
  match depth with
  | O => None
  | S depth =>
      let buff := active_buff ihmacs_state in
      let text := text buff in
      let point := point buff in
      let current_char :=
        match Py.index text point with
        | Some c => c
        | None => "010"%char
        end in
      if Ascii.eqb current_char "010"%char then Some ihmacs_state
      else forward_by_delimiter depth ihmacs_state newline_regex 1
  end.

End Commands.

(** ** Vocabulary of the statements *)

Module BuffSpec.
Import Buff.

(** The range invariant of the data model. *)
Definition point_in_bounds (b : Buffer) : Prop :=
  0 <= point b <= Py.len (text b).
Definition mark_in_bounds (b : Buffer) : Prop :=
  0 <= mark b <= Py.len (text b).
Definition in_bounds (b : Buffer) : Prop :=
  point_in_bounds b /\ mark_in_bounds b.

(** Bounding an offset to [0, hi], case by case. *)
Definition clamp (hi x : Z) : Z :=
  if x <? 0 then 0 else if hi <? x then hi else x.

(** [t] without its characters from offset [a] up to offset [b]. *)
Definition cut {A : Type} (a b : Z) (t : list A) : list A :=
  firstn (Z.to_nat a) t ++ skipn (Z.to_nat b) t.

(** The calls a client can make on a buffer. *)
Inductive Op :=
| SetPoint (pos : Z)
| SetMark (pos : Z)
| Insert (args : list Py.str)
| DeleteChar (chars : Z)
| DeleteRegion.

Definition apply_op (b : Buffer) (o : Op) : Buffer :=
  match o with
  | SetPoint pos => set_point b pos
  | SetMark pos => set_mark b pos
  | Insert args => snd (insert b args)
  | DeleteChar chars => snd (delete_char b chars)
  | DeleteRegion => snd (delete_region b)
  end.

(** The buffer after each call of a sequence, in order. *)
Fixpoint states_after (b : Buffer) (ops : list Op) : list Buffer :=
  match ops with
  | [] => []
  | o :: rest => let b' := apply_op b o in b' :: states_after b' rest
  end.

(** [deleteChar(n)] reaches [point + n] without being stopped at an end of
    the text. *)
Definition no_clamping (b : Buffer) (n : Z) : Prop :=
  0 <= point b + n <= Py.len (text b).

(** A buffer to run the statements on: point after "hello", mark inside
    "world". *)
Definition hello_world : Buffer :=
  mkBuffer (Py.s "hello world") false 5 8 (Py.s "**") (Py.s "") 0.

End BuffSpec.

Module ViewSpec.
Import Buff BuffView State.

(** The height the viewport logic works with: the terminal's line count. *)
Definition viewport_height (st : Ihmacs) : Z := fst (term_size st).

(** Point's line lies within
    [displayLine, displayLine + viewportHeight - 2]. *)
Definition point_line_in_view (st : Ihmacs) : Prop :=
  let b := active_buff st in
  display_line b <= line b <= display_line b + viewport_height st - 2.

(** An editor whose active buffer is [b], in a terminal of [rows] lines. *)
Definition editor (b : Buffer) (rows : Z) : Ihmacs :=
  mkIhmacs b [] (Curses.mkWindow [] false) (rows, 80) [] false.

End ViewSpec.

Module MoveSpec.
Import Buff State Re.

(** Every match lies inside the text, as the spans of a regular expression
    do. *)
Definition matches_in_text (re : Pattern) (t : Py.str) : Prop :=
  Forall (fun m => 0 <= start m <= Py.len t /\ 0 <= end_ m <= Py.len t)
         (finditer re t).

(** Start offsets of the delimiter matches strictly after point, and end
    offsets of those strictly before it, left to right. *)
Definition starts_after (re : Pattern) (b : Buffer) : list Z :=
  filter (fun x => point b <? x) (map start (finditer re (text b))).
Definition ends_before (re : Pattern) (b : Buffer) : list Z :=
  filter (fun x => x <? point b) (map end_ (finditer re (text b))).

(** The [n]-th element counting from 1, or [d] when there are fewer. *)
Definition nth_or {A : Type} (n : Z) (l : list A) (d : A) : A :=
  nth (Z.to_nat (n - 1)) l d.

(** The editor with point at [pos] and nothing else changed. *)
Definition moved_to (st : Ihmacs) (pos : Z) : Ihmacs :=
  with_active_buff st (with_point (active_buff st) pos).

Definition is_space (c : ascii) : bool := Ascii.eqb c " "%char.

End MoveSpec.

Module KeySpec.
Import Curses PyChar State.

(** The classification table of the decoder, row by row: the control prefix
    and the key name a raw code stands for, with the letters written out
    (code 1 is "a", code 26 is "z"). *)
Definition table_entry (keyname : Z -> Py.str) (c : Z) : Py.str * Py.str :=
  if c =? 0 then (Py.s "C-", Py.s " ")
  else if (1 <=? c) && (c <=? 26) then (Py.s "C-", chr (c + 96))
  else if (28 <=? c) && (c <=? 31) then (Py.s "C-", chr (c + 64))
  else if (32 <=? c) && (c <=? 126) then ([], chr c)
  else if c =? 127 then ([], Py.s "DEL")
  else if (128 <=? c) && (c <=? 255) then ([], chr c)
  else if 257 <=? c then
    ([], if str_eqb (keyname c) (Py.s "KEY_BACKSPACE") then Py.s "DEL"
         else keyname c)
  else ([], Py.s "ESC").

(** The token the table gives a code. *)
Definition table_token (keyname : Z -> Py.str) (c : Z) : Py.str :=
  fst (table_entry keyname c) ++ snd (table_entry keyname c).

(** The token of State B as the claim words it: "M-" before the classified
    token of the second code, and "ESC" when there is none. *)
Definition stated_meta_token (keyname : Z -> Py.str) (following : list Z)
  : Py.str :=
  match following with
  | c :: _ => Py.s "M-" ++ table_token keyname c
  | [] => Py.s "ESC"
  end.

(** A terminal's names for a few keypad codes. *)
Definition sample_keyname (c : Z) : Py.str :=
  if c =? 259 then Py.s "KEY_UP"
  else if c =? 263 then Py.s "KEY_BACKSPACE"
  else Py.s "KEY_F(1)".

(** An editor whose terminal has the raw codes [codes] ready. *)
Definition typed (codes : list Z) : Ihmacs :=
  mkIhmacs (Buff.init (Py.s "**") (Py.s "")) []
           (mkWindow codes false) (24, 80) [] false.

End KeySpec.

Module CommandSpec.
Import Buff State.

(** The longest prefix of [t] whose elements all satisfy [keep]. *)
Fixpoint take_while {A : Type} (keep : A -> bool) (t : list A) : list A :=
  match t with
  | [] => []
  | x :: rest => if keep x then x :: take_while keep rest else []
  end.

Definition not_newline (c : ascii) : bool := negb (Ascii.eqb c "010"%char).

(** What is left of point's line from point on. *)
Definition rest_of_line (b : Buffer) : Py.str :=
  take_while not_newline (skipn (Z.to_nat (point b)) (text b)).

(** [st'] is [st] with point somewhere inside the text and nothing else
    changed. *)
Definition only_moves_point (st st' : Ihmacs) : Prop :=
  exists q, 0 <= q <= Py.len (text (active_buff st))
            /\ st' = MoveSpec.moved_to st q.

(** Two lines of text, point in the first word, mark at the start. *)
Definition two_lines : Buffer :=
  mkBuffer (Py.s "ab cd" ++ ["010"%char] ++ Py.s "ef") false 1 0
           (Py.s "**") (Py.s "") 0.

End CommandSpec.

(** * Properties *)

(** ** Slices *)

Section SliceFacts.
Context {A : Type}.
Implicit Types (t : list A) (i a b : Z).

Lemma len_nonneg t : 0 <= Py.len t.
Proof. unfold Py.len. lia. Qed.

Lemma len_app t u : Py.len (t ++ u) = Py.len t + Py.len u.
Proof. unfold Py.len. rewrite length_app. lia. Qed.

Lemma norm_index_range n i : 0 <= n -> 0 <= Py.norm_index n i <= n.
Proof.
  intros Hn. unfold Py.norm_index.
  destruct (Z.ltb_spec i 0); lia.
Qed.

Lemma norm_index_id n i : 0 <= i <= n -> Py.norm_index n i = i.
Proof.
  intros H. unfold Py.norm_index.
  destruct (Z.ltb_spec i 0); lia.
Qed.

(** [t[:i]] is a prefix whatever [i] is, and [t[i:]] the rest. *)
Lemma slice_to_firstn t i :
  Py.slice t None (Some i)
  = firstn (Z.to_nat (Py.norm_index (Py.len t) i)) t.
Proof.
  unfold Py.slice. cbn [skipn Z.to_nat]. now rewrite Z.sub_0_r.
Qed.

Lemma slice_from_skipn t i :
  Py.slice t (Some i) None
  = skipn (Z.to_nat (Py.norm_index (Py.len t) i)) t.
Proof.
  unfold Py.slice.
  pose proof (norm_index_range (Py.len t) i (len_nonneg t)) as Hr.
  apply firstn_all2. rewrite length_skipn. unfold Py.len in *. lia.
Qed.

Lemma slice_to_in t i :
  0 <= i <= Py.len t -> Py.slice t None (Some i) = firstn (Z.to_nat i) t.
Proof. intros H. now rewrite slice_to_firstn, norm_index_id. Qed.

Lemma slice_from_in t i :
  0 <= i <= Py.len t -> Py.slice t (Some i) None = skipn (Z.to_nat i) t.
Proof. intros H. now rewrite slice_from_skipn, norm_index_id. Qed.

Lemma slice_mid_in t a b :
  0 <= a -> a <= b -> b <= Py.len t ->
  Py.slice t (Some a) (Some b)
  = firstn (Z.to_nat (b - a)) (skipn (Z.to_nat a) t).
Proof.
  intros Ha Hab Hb. unfold Py.slice.
  now rewrite !norm_index_id by lia.
Qed.

Lemma len_slice_mid t a b :
  0 <= a -> a <= b -> b <= Py.len t ->
  Py.len (Py.slice t (Some a) (Some b)) = b - a.
Proof.
  intros Ha Hab Hb. rewrite slice_mid_in by assumption.
  unfold Py.len in *. rewrite length_firstn, length_skipn. lia.
Qed.

(** Cutting a sequence at any index, in range or not, loses nothing. *)
Lemma slice_split t i :
  Py.slice t None (Some i) ++ Py.slice t (Some i) None = t.
Proof.
  rewrite slice_to_firstn, slice_from_skipn. apply firstn_skipn.
Qed.

Lemma slice_same t i : Py.slice t (Some i) (Some i) = [].
Proof. unfold Py.slice. now rewrite Z.sub_diag. Qed.

Lemma len_firstn t i :
  0 <= i <= Py.len t -> Py.len (firstn (Z.to_nat i) t) = i.
Proof. intros H. unfold Py.len in *. rewrite length_firstn. lia. Qed.

Lemma len_skipn t i :
  0 <= i <= Py.len t -> Py.len (skipn (Z.to_nat i) t) = Py.len t - i.
Proof. intros H. unfold Py.len in *. rewrite length_skipn. lia. Qed.

Lemma firstn_app_exact t u i :
  Py.len t = i -> firstn (Z.to_nat i) (t ++ u) = t.
Proof.
  intros H. unfold Py.len in H.
  replace (Z.to_nat i) with (length t + 0)%nat by lia.
  rewrite firstn_app_2. cbn. apply app_nil_r.
Qed.

Lemma skipn_app_exact t u i :
  Py.len t = i -> skipn (Z.to_nat i) (t ++ u) = u.
Proof.
  intros H. unfold Py.len in H.
  replace (Z.to_nat i) with (length t) by lia.
  rewrite skipn_app, skipn_all, Nat.sub_diag. reflexivity.
Qed.
End SliceFacts.

(** ** The buffer primitives *)

Section BufferFacts.
Import Buff BuffSpec.
Implicit Types (b : Buffer) (s : Py.str) (n : Z).

Lemma normalize_pos_clamp b pos :
  _normalize_pos b pos = clamp (Py.len (text b)) pos.
Proof.
  unfold _normalize_pos, clamp. pose proof (len_nonneg (text b)).
  destruct (Z.ltb_spec pos 0), (Z.ltb_spec (Py.len (text b)) pos); lia.
Qed.

Lemma normalize_pos_range b pos :
  0 <= _normalize_pos b pos <= Py.len (text b).
Proof. unfold _normalize_pos. pose proof (len_nonneg (text b)). lia. Qed.

Lemma normalize_pos_id b pos :
  0 <= pos <= Py.len (text b) -> _normalize_pos b pos = pos.
Proof. unfold _normalize_pos. lia. Qed.

Lemma len_cut {A : Type} (t : list A) a c :
  0 <= a -> a <= c -> c <= Py.len t ->
  Py.len (cut a c t) = Py.len t - (c - a).
Proof.
  intros. unfold cut. rewrite len_app, len_firstn, len_skipn by lia. lia.
Qed.

(** Two cuts in a row, the second one touching the place of the first. *)
Lemma cut_cut {A : Type} (t : list A) a c a' c' :
  0 <= a' -> a' <= a -> a <= c' -> a <= c -> c' + (c - a) <= Py.len t ->
  cut a' c' (cut a c t) = cut a' (c' + (c - a)) t.
Proof.
  intros H0 H1 H2 H3 H4. unfold cut, Py.len in *.
  rewrite firstn_app, skipn_app, firstn_firstn, length_firstn.
  replace (Nat.min (Z.to_nat a') (Z.to_nat a)) with (Z.to_nat a') by lia.
  replace (Z.to_nat a' - Nat.min (Z.to_nat a) (length t))%nat
    with 0%nat by lia.
  rewrite (skipn_all2 (firstn _ t)) by (rewrite length_firstn; lia).
  rewrite skipn_skipn. cbn [firstn app]. rewrite app_nil_r.
  do 2 f_equal. lia.
Qed.

(** What every deletion does to the text, for a point in range. *)
Lemma delete_char_text b n :
  point_in_bounds b ->
  let c := _normalize_pos b (point b + n) in
  text (snd (delete_char b n))
  = cut (Z.min (point b) c) (Z.max (point b) c) (text b).
Proof.
  intros Hp c. pose proof (normalize_pos_range b (point b + n)) as Hc.
  fold c in Hc. unfold point_in_bounds in Hp.
  unfold delete_char. cbn [fst snd]. fold c.
  set (start := Z.min (point b) c). set (end_ := Z.max (point b) c).
  unfold cut. rewrite slice_to_in, slice_from_in by lia.
  destruct (n <? 0); cbn [mark with_point with_text];
    destruct ((start <=? mark b) && (mark b <=? end_));
    try destruct (mark b >? end_); reflexivity.
Qed.

(** Every field [delete_char] touches, for a point in range. *)
Lemma delete_char_fields b n :
  point_in_bounds b ->
  let c := _normalize_pos b (point b + n) in
  let start := Z.min (point b) c in
  let end_ := Z.max (point b) c in
  fst (delete_char b n) = Py.slice (text b) (Some start) (Some end_)
  /\ point (snd (delete_char b n)) = (if n <? 0 then start else point b)
  /\ mark (snd (delete_char b n))
     = (if (start <=? mark b) && (mark b <=? end_) then start
        else if mark b >? end_ then mark b - (end_ - start)
        else mark b).
Proof.
  intros Hp c start end_.
  pose proof (normalize_pos_range b (point b + n)) as Hc. fold c in Hc.
  unfold point_in_bounds in Hp.
  assert (Hlen : Py.len (Py.slice (text b) (Some start) (Some end_))
                 = end_ - start)
    by (apply len_slice_mid; subst start end_; lia).
  unfold delete_char. cbn [fst snd]. fold c. fold start. fold end_.
  rewrite Hlen. split; [reflexivity|].
  destruct (n <? 0); cbn [mark point with_point with_text];
    destruct ((start <=? mark b) && (mark b <=? end_));
    try destruct (mark b >? end_); cbn; auto.
Qed.

Lemma insert_len_text b args :
  Py.len (text (snd (insert b args)))
  = Py.len (text b) + Py.len (Py.join_empty args).
Proof.
  unfold insert. cbn [snd].
  assert (Hlen : Py.len (Py.slice (text b) None (Some (point b))
                         ++ Py.join_empty args
                         ++ Py.slice (text b) (Some (point b)) None)
                 = Py.len (text b) + Py.len (Py.join_empty args)).
  { rewrite <- (slice_split (text b) (point b)) at 3.
    rewrite !len_app. lia. }
  destruct (mark b >? point b); cbn; exact Hlen.
Qed.

Lemma insert_in_bounds b args :
  in_bounds b -> in_bounds (snd (insert b args)).
Proof.
  intros [Hp Hm]. unfold in_bounds, point_in_bounds, mark_in_bounds in *.
  rewrite insert_len_text.
  pose proof (len_nonneg (Py.join_empty args)).
  unfold insert. cbn [snd].
  destruct (Z.gtb_spec (mark b) (point b)); cbn; lia.
Qed.

Lemma delete_char_in_bounds b n :
  in_bounds b -> in_bounds (snd (delete_char b n)).
Proof.
  intros [Hp Hm]. unfold in_bounds, point_in_bounds, mark_in_bounds.
  destruct (delete_char_fields b n Hp) as (_ & Hpt & Hmk).
  rewrite Hpt, Hmk, (delete_char_text b n Hp). clear Hpt Hmk.
  pose proof (normalize_pos_range b (point b + n)) as Hc.
  unfold point_in_bounds, mark_in_bounds in *.
  rewrite len_cut by lia.
  assert (Hfwd : 0 <= n -> point b <= _normalize_pos b (point b + n))
    by (unfold _normalize_pos; lia).
  destruct (Z.ltb_spec n 0);
    destruct (Z.leb_spec (Z.min (point b) (_normalize_pos b (point b + n)))
                         (mark b));
    destruct (Z.leb_spec (mark b)
                         (Z.max (point b) (_normalize_pos b (point b + n))));
    cbn [andb];
    try destruct (Z.gtb_spec (mark b)
                    (Z.max (point b) (_normalize_pos b (point b + n))));
    lia.
Qed.

Lemma delete_region_in_bounds b :
  in_bounds b -> in_bounds (snd (delete_region b)).
Proof.
  intros [Hp Hm]. unfold in_bounds, point_in_bounds, mark_in_bounds in *.
  unfold delete_region. cbn [snd text point mark with_text with_point
                             with_mark].
  rewrite slice_to_in, slice_from_in by lia.
  fold (cut (Z.min (point b) (mark b)) (Z.max (point b) (mark b)) (text b)).
  rewrite len_cut by lia. lia.
Qed.

Lemma set_point_in_bounds b pos : in_bounds b -> in_bounds (set_point b pos).
Proof.
  intros [Hp Hm]. split; [|exact Hm].
  unfold point_in_bounds, set_point. cbn. apply normalize_pos_range.
Qed.

Lemma set_mark_in_bounds b pos : in_bounds b -> in_bounds (set_mark b pos).
Proof.
  intros [Hp Hm]. split; [exact Hp|].
  unfold mark_in_bounds, set_mark. cbn. apply normalize_pos_range.
Qed.

Lemma apply_op_in_bounds b o : in_bounds b -> in_bounds (apply_op b o).
Proof.
  destruct o; cbn [apply_op];
    auto using set_point_in_bounds, set_mark_in_bounds, insert_in_bounds,
               delete_char_in_bounds, delete_region_in_bounds.
Qed.

Lemma init_in_bounds nm pth : in_bounds (init nm pth).
Proof. repeat split; cbn; lia. Qed.
End BufferFacts.

(** ** Insertion and deletion *)

Section BufferClaims.
Import Buff BuffSpec.
Implicit Types (b : Buffer) (s : Py.str) (n : Z).

Lemma insert_fields b args :
  point_in_bounds b ->
  let ins := Py.join_empty args in
  text (snd (insert b args))
  = firstn (Z.to_nat (point b)) (text b) ++ ins
    ++ skipn (Z.to_nat (point b)) (text b)
  /\ point (snd (insert b args)) = point b + Py.len ins
  /\ mark (snd (insert b args))
     = (if mark b >? point b then mark b + Py.len ins else mark b)
  /\ fst (insert b args) = ins.
Proof.
  intros Hp ins. unfold point_in_bounds in Hp.
  unfold insert. cbn [fst snd]. fold ins.
  rewrite slice_to_in, slice_from_in by lia.
  destruct (mark b >? point b); cbn; auto.
Qed.

Lemma join_single s : Py.join_empty [s] = s.
Proof. unfold Py.join_empty. cbn. apply app_nil_r. Qed.

(** C1. For a buffer with text T, point p and mark m, both offsets within
    [0, len(T)], [insert(s)] leaves the text T[:p] + s + T[p:] (the first
    p characters of T, then s, then the rest of T), point p + len(s), mark
    m + len(s) when m > p and m otherwise, and returns s. *)
Theorem insert_postconditions b s :
  0 <= point b <= Py.len (text b) ->
  0 <= mark b <= Py.len (text b) ->
  text (snd (insert b [s]))
  = Py.slice (text b) None (Some (point b)) ++ s
    ++ Py.slice (text b) (Some (point b)) None
  /\ text (snd (insert b [s]))
     = firstn (Z.to_nat (point b)) (text b) ++ s
       ++ skipn (Z.to_nat (point b)) (text b)
  /\ point (snd (insert b [s])) = point b + Py.len s
  /\ mark (snd (insert b [s]))
     = (if mark b >? point b then mark b + Py.len s else mark b)
  /\ fst (insert b [s]) = s.
Proof.
  intros Hp _.
  destruct (insert_fields b [s] Hp) as (Ht & Hpt & Hmk & Hret).
  rewrite join_single in *.
  rewrite slice_to_in, slice_from_in by exact Hp.
  auto.
Qed.

Lemma insert_postconditions_witness :
  text (snd (insert hello_world [Py.s "XY"])) = Py.s "helloXY world"
  /\ point (snd (insert hello_world [Py.s "XY"])) = 7
  /\ mark (snd (insert hello_world [Py.s "XY"])) = 10
  /\ fst (insert hello_world [Py.s "XY"]) = Py.s "XY".
Proof.
  destruct (insert_postconditions hello_world (Py.s "XY"))
    as (_ & Ht & Hp & Hm & Hr); [cbn; lia | cbn; lia |].
  split; [|split; [|split]];
    [rewrite Ht | rewrite Hp | rewrite Hm | rewrite Hr]; reflexivity.
Defined.

(** C2. With start = min(point, clamp(point+n)) and
    end = max(point, clamp(point+n)), clamp bounding to [0, len(text)]:
    [deleteChar(n)] returns text[start:end] and leaves the text without
    that span; point becomes start when n < 0 and stays when n >= 0; mark
    becomes start when start <= mark <= end, mark - (end - start) when
    mark > end, and stays otherwise. *)
Theorem delete_char_postconditions b n :
  0 <= point b <= Py.len (text b) ->
  let c := clamp (Py.len (text b)) (point b + n) in
  let start := Z.min (point b) c in
  let end_ := Z.max (point b) c in
  fst (delete_char b n)
  = firstn (Z.to_nat (end_ - start)) (skipn (Z.to_nat start) (text b))
  /\ text (snd (delete_char b n))
     = firstn (Z.to_nat start) (text b) ++ skipn (Z.to_nat end_) (text b)
  /\ point (snd (delete_char b n)) = (if n <? 0 then start else point b)
  /\ mark (snd (delete_char b n))
     = (if (start <=? mark b) && (mark b <=? end_) then start
        else if mark b >? end_ then mark b - (end_ - start)
        else mark b).
Proof.
  intros Hp. rewrite <- normalize_pos_clamp. intros c start end_.
  pose proof (normalize_pos_range b (point b + n)) as Hc. fold c in Hc.
  destruct (delete_char_fields b n Hp) as (Hret & Hpt & Hmk).
  fold c in Hret, Hpt, Hmk. fold start in Hret, Hpt, Hmk.
  fold end_ in Hret, Hmk.
  split; [|split; [|split]]; try assumption.
  - rewrite Hret. apply slice_mid_in; subst start end_; lia.
  - apply (delete_char_text b n Hp).
Qed.

Lemma delete_char_postconditions_witness :
  fst (delete_char hello_world (-3)) = Py.s "llo"
  /\ text (snd (delete_char hello_world (-3))) = Py.s "he world"
  /\ point (snd (delete_char hello_world (-3))) = 2
  /\ mark (snd (delete_char hello_world (-3))) = 5.
Proof.
  destruct (delete_char_postconditions hello_world (-3))
    as (Hr & Ht & Hp & Hm); [cbn; lia |].
  split; [|split; [|split]];
    [rewrite Hr | rewrite Ht | rewrite Hp | rewrite Hm]; reflexivity.
Defined.

Lemma mutators_keep_modified b args n :
  modified (snd (insert b args)) = modified b
  /\ modified (snd (delete_char b n)) = modified b
  /\ modified (snd (delete_region b)) = modified b.
Proof.
  unfold insert, delete_char, delete_region. cbn [snd].
  split; [|split]; [| |reflexivity].
  - destruct (mark b >? point b); reflexivity.
  - set (c := _normalize_pos b (point b + n)). cbn [fst snd].
    destruct (n <? 0); cbn [mark with_point with_text];
      destruct ((Z.min (point b) c <=? mark b)
                && (mark b <=? Z.max (point b) c));
      try destruct (mark b >? Z.max (point b) c); reflexivity.
Qed.

(** C3. The claim is that [insert], [deleteChar] and [deleteRegion] each
    set the modified flag.  On a buffer whose flag is unset each of them
    changes the text and leaves the flag unset. *)
Theorem mutators_on_unmodified_buffer :
  modified (snd (insert (init (Py.s "**") (Py.s "")) [Py.s "a"])) = false
  /\ text (snd (insert (init (Py.s "**") (Py.s "")) [Py.s "a"])) = Py.s "a"
  /\ modified (snd (delete_char hello_world 1)) = false
  /\ text (snd (delete_char hello_world 1)) = Py.s "helloworld"
  /\ modified (snd (delete_region hello_world)) = false
  /\ text (snd (delete_region hello_world)) = Py.s "hellorld".
Proof. repeat split. Qed.

(** C6. For a non-empty string s, [insert(s)] followed by
    [deleteChar(-len(s))] gives back the text and the point the buffer
    had. *)
Theorem insert_delete_roundtrip b s :
  0 <= point b <= Py.len (text b) ->
  s <> [] ->
  text (snd (delete_char (snd (insert b [s])) (- Py.len s))) = text b
  /\ point (snd (delete_char (snd (insert b [s])) (- Py.len s)))
     = point b.
Proof.
  intros Hp Hs. set (b1 := snd (insert b [s])).
  destruct (insert_fields b [s] Hp) as (Ht & Hpt & _ & _).
  rewrite join_single in Ht, Hpt. fold b1 in Ht, Hpt.
  assert (Hlen : 0 < Py.len s)
    by (destruct s; [contradiction | unfold Py.len; cbn; lia]).
  assert (Hlen1 : Py.len (text b1) = Py.len (text b) + Py.len s)
    by (unfold b1; now rewrite insert_len_text, join_single).
  assert (Hp1 : point_in_bounds b1) by (unfold point_in_bounds; lia).
  assert (Hc : _normalize_pos b1 (point b1 + - Py.len s) = point b)
    by (rewrite normalize_pos_id; lia).
  split.
  - rewrite (delete_char_text b1 _ Hp1), Hc, Hpt.
    replace (Z.min (point b + Py.len s) (point b)) with (point b) by lia.
    replace (Z.max (point b + Py.len s) (point b))
      with (point b + Py.len s) by lia.
    unfold cut. rewrite Ht.
    rewrite firstn_app_exact by (apply len_firstn; lia).
    rewrite app_assoc, skipn_app_exact
      by (rewrite len_app, len_firstn; lia).
    apply firstn_skipn.
  - destruct (delete_char_fields b1 (- Py.len s) Hp1) as (_ & Hpt2 & _).
    rewrite Hpt2, Hc, Hpt. destruct (Z.ltb_spec (- Py.len s) 0); lia.
Qed.

Lemma insert_delete_roundtrip_witness :
  text (snd (delete_char (snd (insert hello_world [Py.s "XY"])) (-2)))
  = Py.s "hello world"
  /\ point (snd (delete_char (snd (insert hello_world [Py.s "XY"])) (-2)))
     = 5.
Proof.
  apply (insert_delete_roundtrip hello_world (Py.s "XY"));
    [cbn; lia | discriminate].
Defined.

(** C9. From a buffer whose point and mark lie in [0, len(text)], they
    still do after each call of any sequence of [setPoint], [setMark],
    [insert], [deleteChar] and [deleteRegion]; [setPoint] and [setMark]
    accept any integer and store it bounded to [0, len(text)]. *)
Theorem bounds_invariant b ops :
  in_bounds b ->
  Forall in_bounds (states_after b ops)
  /\ (forall pos,
        point (set_point b pos) = clamp (Py.len (text b)) pos
        /\ 0 <= point (set_point b pos) <= Py.len (text b))
  /\ (forall pos,
        mark (set_mark b pos) = clamp (Py.len (text b)) pos
        /\ 0 <= mark (set_mark b pos) <= Py.len (text b)).
Proof.
  intros Hb. split; [|split].
  - revert b Hb. induction ops as [|o rest IH]; intros b Hb; cbn.
    + constructor.
    + constructor; [|apply IH]; now apply apply_op_in_bounds.
  - intros pos. unfold set_point. cbn.
    split; [apply normalize_pos_clamp | apply normalize_pos_range].
  - intros pos. unfold set_mark. cbn.
    split; [apply normalize_pos_clamp | apply normalize_pos_range].
Qed.

Lemma bounds_invariant_witness :
  Forall in_bounds
    (states_after (init (Py.s "**") (Py.s ""))
       [Insert [Py.s "hello"; Py.s " world"]; SetMark 3; SetPoint (-4);
        DeleteChar 2; SetPoint 100; DeleteChar (-20); DeleteRegion])
  /\ point (set_point hello_world 100) = 11
  /\ mark (set_mark hello_world (-7)) = 0.
Proof.
  destruct (bounds_invariant (init (Py.s "**") (Py.s ""))
              [Insert [Py.s "hello"; Py.s " world"]; SetMark 3;
               SetPoint (-4); DeleteChar 2; SetPoint 100;
               DeleteChar (-20); DeleteRegion]
              (init_in_bounds _ _)) as (Hall & _ & _).
  split; [exact Hall|]. split; reflexivity.
Defined.

(** C10. After one [deleteRegion], point equals mark, and the next
    [deleteRegion] returns the empty string and leaves the buffer, its
    text, point and mark included, as it was. *)
Theorem delete_region_idempotent b :
  point (snd (delete_region b)) = mark (snd (delete_region b))
  /\ delete_region (snd (delete_region b))
     = ([], snd (delete_region b)).
Proof.
  split; [reflexivity|].
  unfold delete_region.
  cbn [snd text point mark modified name path display_line
       with_text with_point with_mark].
  rewrite Z.min_id, Z.max_id, slice_same, slice_split. reflexivity.
Qed.

(** C7, as stated, fails: deleting two characters forward and then two
    backward from point 2 of "abcdef" leaves "ef", although neither
    deletion is stopped at an end of the text. *)
Lemma delete_char_inverse_counterexample :
  ~ (forall b n,
        in_bounds b ->
        no_clamping b n ->
        no_clamping (snd (delete_char b n)) (- n) ->
        text (snd (delete_char (snd (delete_char b n)) (- n))) = text b).
Proof.
  intros H.
  specialize (H (mkBuffer (Py.s "abcdef") false 2 0 (Py.s "**") (Py.s "") 0)
                2).
  cbv in H. discriminate H; repeat split; discriminate.
Qed.

(** C7, amended. When neither deletion is stopped at an end of the text
    (|n| characters exist on each side of point p), [deleteChar(n)]
    followed by [deleteChar(-n)] leaves text[:p-|n|] + text[p+|n|:]: the
    |n| characters on each side of p are gone, so the text is the
    original one only for n = 0. *)
Theorem delete_char_then_opposite b n :
  0 <= point b - Z.abs n ->
  point b + Z.abs n <= Py.len (text b) ->
  text (snd (delete_char (snd (delete_char b n)) (- n)))
  = cut (point b - Z.abs n) (point b + Z.abs n) (text b)
  /\ (text (snd (delete_char (snd (delete_char b n)) (- n))) = text b
      <-> n = 0).
Proof.
  intros Hlo Hhi.
  assert (Hp : point_in_bounds b) by (unfold point_in_bounds; lia).
  set (b1 := snd (delete_char b n)).
  assert (Hc : _normalize_pos b (point b + n) = point b + n)
    by (rewrite normalize_pos_id; lia).
  pose proof (delete_char_text b n Hp) as Ht1. cbv zeta in Ht1.
  destruct (delete_char_fields b n Hp) as (_ & Hpt1 & _).
  rewrite Hc in Ht1, Hpt1. fold b1 in Ht1, Hpt1.
  set (a := Z.min (point b) (point b + n)) in *.
  assert (Hpt1' : point b1 = a)
    by (rewrite Hpt1; destruct (Z.ltb_spec n 0); subst a; lia).
  replace (Z.max (point b) (point b + n)) with (a + Z.abs n) in Ht1
    by (subst a; lia).
  assert (Hlen1 : Py.len (text b1) = Py.len (text b) - Z.abs n)
    by (rewrite Ht1, len_cut; subst a; lia).
  assert (Hp1 : point_in_bounds b1)
    by (unfold point_in_bounds; subst a; lia).
  assert (Hc1 : _normalize_pos b1 (point b1 + - n) = a - n)
    by (rewrite normalize_pos_id; subst a; lia).
  assert (Htext :
    text (snd (delete_char b1 (- n)))
    = cut (point b - Z.abs n) (point b + Z.abs n) (text b)).
  { rewrite (delete_char_text b1 (- n) Hp1), Hc1, Hpt1', Ht1.
    rewrite cut_cut by (subst a; lia).
    f_equal; subst a; lia. }
  split; [exact Htext|]. rewrite Htext. split.
  - intros Heq. apply (f_equal Py.len) in Heq.
    rewrite len_cut in Heq by lia. lia.
  - intros ->. cbn [Z.abs]. rewrite Z.sub_0_r, Z.add_0_r.
    unfold cut. apply firstn_skipn.
Qed.

Lemma delete_char_then_opposite_witness :
  text (snd (delete_char (snd (delete_char hello_world 2)) (-2)))
  = Py.s "helorld".
Proof.
  destruct (delete_char_then_opposite hello_world 2) as (Ht & _);
    [cbn; lia | cbn; lia |].
  exact Ht.
Defined.
End BufferClaims.

(** ** The viewport after a command *)

Section ViewClaims.
Import Buff BuffView State Controller ViewSpec.

(** Scrolling leaves point's line where it is. *)
Lemma line_with_display_line b d : line (with_display_line b d) = line b.
Proof. reflexivity. Qed.

(** What [_ensure_valid_point] does, by the place of point's line. *)
Lemma ensure_valid_point_display_line st :
  let b := active_buff st in
  let h := viewport_height st in
  _ensure_valid_point st
  = with_active_buff st
      (with_display_line b
         ((if line b <? display_line b then line b else display_line b)
          + (if line b >=? display_line b + h - 2
             then line b - (display_line b + h - 2) + 1 else 0))).
Proof.
  intros b h. unfold _ensure_valid_point, viewport_height in *.
  subst h. destruct (term_size st) as [rows cols]. cbn [fst]. fold b.
  unfold scroll_buffer.
  destruct (line b <? display_line b);
    destruct (line b >=? display_line b + rows - 2);
    cbn [display_line with_display_line text modified point mark name
         path];
    unfold with_active_buff, with_display_line; do 2 f_equal;
    try lia.
  destruct b; cbn. f_equal. lia.
Qed.

(** C5, as stated, fails in a terminal of two lines: with point on line 0
    and line 0 displayed first, [run_edit] of a command that changes
    nothing scrolls to line 1 and point's line 0 is out of [1, 1]. *)
Lemma run_edit_view_counterexample :
  ~ (forall st func, point_line_in_view (run_edit st func)).
Proof.
  intros H.
  specialize (H (editor (init (Py.s "**") (Py.s "")) 2) (fun st => st)).
  unfold point_line_in_view in H. vm_compute in H.
  destruct H as [H _]. apply H. reflexivity.
Qed.

(** C5, amended. In a viewport of at least three lines, after any command
    run through [run_edit] point's line lies within
    [displayLine, displayLine + viewportHeight - 2]; [run_edit] changes
    nothing but the buffer's displayLine after the command (point stays),
    and it does change displayLine when the command left point's line
    outside that range. *)
Theorem run_edit_keeps_point_in_view st func :
  3 <= viewport_height (func st) ->
  point_line_in_view (run_edit st func)
  /\ (exists d,
        run_edit st func
        = with_active_buff (func st)
            (with_display_line (active_buff (func st)) d))
  /\ (~ point_line_in_view (func st) ->
      display_line (active_buff (run_edit st func))
      <> display_line (active_buff (func st))).
Proof.
  intros Hh. unfold run_edit. cbv zeta.
  rewrite ensure_valid_point_display_line. cbv zeta.
  set (st' := func st) in *. set (b := active_buff st').
  set (h := viewport_height st') in *.
  split; [|split].
  - unfold point_line_in_view, viewport_height.
    cbn [active_buff with_active_buff term_size display_line
         with_display_line].
    rewrite line_with_display_line. fold b.
    change (fst (term_size st')) with h.
    destruct (Z.ltb_spec (line b) (display_line b));
      rewrite Z.geb_leb;
      destruct (Z.leb_spec (display_line b + h - 2) (line b)); lia.
  - eexists. reflexivity.
  - unfold point_line_in_view. fold b. fold h. intros Hout.
    cbn [active_buff with_active_buff display_line with_display_line].
    fold b.
    destruct (Z.ltb_spec (line b) (display_line b));
      rewrite Z.geb_leb;
      destruct (Z.leb_spec (display_line b + h - 2) (line b)); lia.
Qed.

Lemma run_edit_keeps_point_in_view_witness :
  point_line_in_view
    (run_edit (editor (init (Py.s "**") (Py.s "")) 5)
              (fun st =>
                 with_active_buff st
                   (snd (insert (active_buff st)
                                [Py.s "a"; ["010"%char]; Py.s "b";
                                 ["010"%char]; Py.s "c"; ["010"%char];
                                 ["010"%char]; Py.s "d"])))).
Proof.
  apply run_edit_keeps_point_in_view. vm_compute. discriminate.
Defined.
End ViewClaims.

(** ** Movement by delimiter *)

Section IndexFacts.
Context {A : Type}.
Implicit Types (l : list A) (d : A).

Lemma nth_error_or_default l k d :
  match nth_error l k with Some v => v | None => d end = nth k l d.
Proof.
  revert k. induction l as [|x l IH]; intros [|k]; cbn; auto.
Qed.

(** A non-negative index reads from the front. *)
Lemma index_from_front l i :
  0 <= i -> Py.index l i = nth_error l (Z.to_nat i).
Proof.
  intros Hi. unfold Py.index, Py.len.
  destruct (Z.ltb_spec i 0); [lia|].
  destruct (Z.leb_spec 0 i); [|lia]. cbn [andb].
  destruct (Z.ltb_spec i (Z.of_nat (length l))); [reflexivity|].
  symmetry. apply nth_error_None. lia.
Qed.

(** A negative index [-k] reads the [k]-th element from the end. *)
Lemma index_from_end l k :
  0 < k -> Py.index l (- k) = nth_error (rev l) (Z.to_nat (k - 1)).
Proof.
  intros Hk. unfold Py.index, Py.len.
  destruct (Z.ltb_spec (- k) 0); [|lia].
  destruct (Z.leb_spec 0 (- k + Z.of_nat (length l))); cbn [andb].
  - destruct (Z.ltb_spec (- k + Z.of_nat (length l))
                         (Z.of_nat (length l))); [|lia].
    rewrite nth_error_rev.
    destruct (Nat.ltb_spec (Z.to_nat (k - 1)) (length l)); [|lia].
    f_equal. lia.
  - symmetry. apply nth_error_None. rewrite length_rev. lia.
Qed.

Lemma nth_Forall (P : A -> Prop) l k d :
  Forall P l -> P d -> P (nth k l d).
Proof.
  intros Hl Hd. revert k.
  induction Hl as [|x l Hx Hl IH]; intros [|k]; cbn; auto.
Qed.
End IndexFacts.

Section MoveClaims.
Import Buff BuffSpec State Re BasicEditing MoveSpec.
Implicit Types (st : Ihmacs) (re : Pattern) (n : Z) (depth : nat).

Lemma map_filter_offsets (f : Match -> Z) (keep : Z -> bool) ms :
  map f (filter (fun i => keep (f i)) ms) = filter keep (map f ms).
Proof.
  induction ms as [|m ms IH]; cbn; [reflexivity|].
  destruct (keep (f m)); cbn; now rewrite IH.
Qed.

Lemma starts_after_in_text re (b : Buffer) :
  matches_in_text re (text b) ->
  Forall (fun x => 0 <= x <= Py.len (text b)) (starts_after re b).
Proof.
  unfold matches_in_text, starts_after. rewrite !Forall_forall.
  intros H x Hx. apply filter_In in Hx as [Hx _].
  apply in_map_iff in Hx as (m & <- & Hm). now apply H.
Qed.

Lemma ends_before_in_text re (b : Buffer) :
  matches_in_text re (text b) ->
  Forall (fun x => 0 <= x <= Py.len (text b)) (ends_before re b).
Proof.
  unfold matches_in_text, ends_before. rewrite !Forall_forall.
  intros H x Hx. apply filter_In in Hx as [Hx _].
  apply in_map_iff in Hx as (m & <- & Hm). now apply H.
Qed.

Lemma set_point_in_range (b : Buffer) pos :
  0 <= pos <= Py.len (text b) -> set_point b pos = with_point b pos.
Proof. intros H. unfold set_point. now rewrite normalize_pos_id. Qed.

(** One call with a positive count needs no further call. *)
Lemma forward_positive depth st re n :
  0 < n ->
  matches_in_text re (text (active_buff st)) ->
  forward_by_delimiter (S depth) st re n
  = Some (moved_to st (nth_or n (starts_after re (active_buff st))
                              (Py.len (text (active_buff st))))).
Proof.
  intros Hn Hm. cbn [forward_by_delimiter].
  destruct (Z.eqb_spec n 0); [lia|]. destruct (Z.ltb_spec n 0); [lia|].
  unfold finditer, point_max, moved_to, nth_or. do 2 f_equal.
  rewrite (map_filter_offsets start (fun x => x >? point (active_buff st))).
  rewrite index_from_front, nth_error_or_default by lia.
  replace (filter (fun x => x >? point (active_buff st))
                  (map start (re (text (active_buff st)))))
    with (starts_after re (active_buff st))
    by (unfold starts_after, finditer; apply filter_ext; intros x;
        now rewrite Z.gtb_ltb).
  apply set_point_in_range.
  apply (nth_Forall (fun x => 0 <= x <= Py.len (text (active_buff st)))).
  - now apply starts_after_in_text.
  - pose proof (len_nonneg (text (active_buff st))). lia.
Qed.

Lemma backward_positive depth st re n :
  0 < n ->
  matches_in_text re (text (active_buff st)) ->
  backward_by_delimiter (S depth) st re n
  = Some (moved_to st (nth_or n (rev (ends_before re (active_buff st)))
                              0)).
Proof.
  intros Hn Hm. cbn [backward_by_delimiter].
  destruct (Z.eqb_spec n 0); [lia|]. destruct (Z.ltb_spec n 0); [lia|].
  unfold finditer, point_min, moved_to, nth_or. do 2 f_equal.
  rewrite (map_filter_offsets end_ (fun x => x <? point (active_buff st))).
  rewrite index_from_end, nth_error_or_default by lia.
  fold (finditer re (text (active_buff st))).
  fold (ends_before re (active_buff st)).
  apply set_point_in_range.
  apply (nth_Forall (fun x => 0 <= x <= Py.len (text (active_buff st)))).
  - apply Forall_rev. now apply ends_before_in_text.
  - pose proof (len_nonneg (text (active_buff st))). lia.
Qed.

(** C8. For a count n > 0, [forwardByDelimiter] moves point to the n-th
    start offset, counting from 1, among the delimiter matches that start
    strictly after point, or to len(text) when there are fewer than n;
    [backwardByDelimiter] moves it to the n-th from last end offset among
    the matches that end strictly before point, or to 0 when there are
    fewer than n.  For n < 0 each one does what the other does with |n|,
    and for n = 0 nothing changes.  Two nested calls are all it takes. *)
Theorem by_delimiter_moves depth st re n :
  (2 <= depth)%nat ->
  matches_in_text re (text (active_buff st)) ->
  let b := active_buff st in
  let forward_target k := nth_or k (starts_after re b) (Py.len (text b)) in
  let backward_target k := nth_or k (rev (ends_before re b)) 0 in
  (0 < n ->
     forward_by_delimiter depth st re n
     = Some (moved_to st (forward_target n))
     /\ backward_by_delimiter depth st re n
        = Some (moved_to st (backward_target n)))
  /\ (n < 0 ->
      forward_by_delimiter depth st re n
      = backward_by_delimiter depth st re (Z.abs n)
      /\ backward_by_delimiter depth st re n
         = forward_by_delimiter depth st re (Z.abs n)
      /\ forward_by_delimiter depth st re n
         = Some (moved_to st (backward_target (Z.abs n)))
      /\ backward_by_delimiter depth st re n
         = Some (moved_to st (forward_target (Z.abs n))))
  /\ (n = 0 ->
      forward_by_delimiter depth st re n = Some st
      /\ backward_by_delimiter depth st re n = Some st).
Proof.
  intros Hd Hm b forward_target backward_target.
  destruct depth as [|[|depth]]; [lia | lia | clear Hd].
  split; [|split].
  - intros Hn. split;
      [now apply forward_positive | now apply backward_positive].
  - intros Hn.
    assert (Hneg : - n = Z.abs n) by lia.
    assert (Hf : forward_by_delimiter (S (S depth)) st re n
                 = backward_by_delimiter (S depth) st re (Z.abs n)).
    { cbn [forward_by_delimiter].
      destruct (Z.eqb_spec n 0); [lia|].
      destruct (Z.ltb_spec n 0); [|lia]. now rewrite Hneg. }
    assert (Hb : backward_by_delimiter (S (S depth)) st re n
                 = forward_by_delimiter (S depth) st re (Z.abs n)).
    { cbn [backward_by_delimiter].
      destruct (Z.eqb_spec n 0); [lia|].
      destruct (Z.ltb_spec n 0); [|lia]. now rewrite Hneg. }
    rewrite Hf, Hb.
    rewrite !forward_positive, !backward_positive by (assumption || lia).
    auto.
  - intros ->. split; reflexivity.
Qed.

Lemma by_delimiter_moves_witness :
  forward_by_delimiter 2 (ViewSpec.editor hello_world 24)
                       (one_or_more is_space) 1
  = Some (moved_to (ViewSpec.editor hello_world 24) 11)
  /\ backward_by_delimiter
       2 (moved_to (ViewSpec.editor hello_world 24) 11)
       (one_or_more is_space) 1
     = Some (moved_to (ViewSpec.editor hello_world 24) 6).
Proof.
  split.
  - refine (proj1 (proj1 (by_delimiter_moves
                            2 (ViewSpec.editor hello_world 24)
                            (one_or_more is_space) 1 _ _) _)).
    + lia.
    + repeat (constructor; [cbn; lia|]). constructor.
    + lia.
  - refine (proj2 (proj1 (by_delimiter_moves
                            2 (moved_to (ViewSpec.editor hello_world 24) 11)
                            (one_or_more is_space) 1 _ _) _)).
    + lia.
    + repeat (constructor; [cbn; lia|]). constructor.
    + lia.
Defined.
End MoveClaims.

(** ** The key decoder after an escape code *)

Section KeyClaims.
Import Curses PyChar State Controller KeySpec.
Variable keyname : Z -> Py.str.

Lemma lower_control_letter c :
  1 <= c <= 26 -> lower (chr (c + 64)) = chr (c + 96).
Proof.
  intros H. destruct c as [|p|p]; try lia.
  do 5 (try destruct p as [p|p|]); try lia; reflexivity.
Qed.

Lemma lower_control_sign c :
  28 <= c <= 31 -> lower (chr (c + 64)) = chr (c + 64).
Proof.
  intros H. destruct c as [|p|p]; try lia.
  do 5 (try destruct p as [p|p|]); try lia; reflexivity.
Qed.

Lemma extract_letter_control c :
  0 <= c < 32 -> extract_letter c = Some (lower (chr (c + 64))).
Proof.
  intros H. unfold extract_letter, unctrl.
  destruct (Z.leb_spec 0 c); [|lia]. destruct (Z.ltb_spec c 32); [|lia].
  reflexivity.
Qed.

(** The chain of [read_key] computes the table, row for row. *)
Lemma handle_key_characters_table c :
  handle_key_characters keyname c = Some (table_entry keyname c).
Proof.
  unfold handle_key_characters, table_entry, KEY_MIN.
  destruct (Z.eqb_spec c 0); [reflexivity|].
  destruct (Z.leb_spec 1 c), (Z.leb_spec c 26); cbn [andb];
    try (rewrite extract_letter_control, lower_control_letter by lia;
         reflexivity).
  all: destruct (Z.eqb_spec c 27).
  all: destruct (Z.leb_spec 28 c), (Z.leb_spec c 31); cbn [andb];
    try lia;
    try (rewrite extract_letter_control, lower_control_sign by lia;
         reflexivity).
  all: destruct (Z.leb_spec 32 c), (Z.leb_spec c 126); cbn [andb];
    try lia; try reflexivity.
  all: destruct (Z.eqb_spec c 127); try lia; try reflexivity.
  all: destruct (Z.leb_spec 128 c), (Z.leb_spec c 255); cbn [andb];
    try lia; try reflexivity.
  all: rewrite ?Z.geb_leb; destruct (Z.leb_spec 257 c);
    try lia; reflexivity.
Qed.

(** C4, amended. In State B, entered when the first raw code is 27, the
    token is the control prefix of the second code, then "M-", then its
    key name, both taken from the table: codes [27, 102] give "M-f" and
    codes [27, 6] give "C-M-f".  When no second code is ready the poll
    returns -1, which the table's fallback row names "ESC", and the token
    is "M-ESC".  The token is appended to the keychord, the codes read are
    consumed and the window is left in blocking mode. *)
Theorem read_key_after_escape st following :
  pending (window st) = 27 :: following ->
  read_key keyname st
  = Some (with_keychord
            (with_window st (mkWindow (tl following) false))
            (keychord st
             ++ [match following with
                 | c :: _ => fst (table_entry keyname c) ++ Py.s "M-"
                             ++ snd (table_entry keyname c)
                 | [] => Py.s "M-ESC"
                 end])).
Proof.
  intros H. unfold read_key. unfold getch at 1. rewrite H.
  cbn [bind app]. change (27 =? 27) with true. cbv iota.
  unfold getch, nodelay. cbn [pending nodelay_mode].
  destruct following as [|c rest]; cbn [bind app tl].
  - replace (Py.index [27; -1] 0) with (Some 27) by reflexivity.
    cbn [bind]. change (27 =? 27) with true. cbv iota.
    replace (Py.index [27; -1] 1) with (Some (-1)) by reflexivity.
    cbn [bind]. rewrite handle_key_characters_table. reflexivity.
  - replace (Py.index [27; c] 0) with (Some 27) by reflexivity.
    cbn [bind]. change (27 =? 27) with true. cbv iota.
    replace (Py.index [27; c] 1) with (Some c) by reflexivity.
    cbn [bind]. rewrite handle_key_characters_table.
    destruct (table_entry keyname c) as [control face].
    reflexivity.
Qed.
End KeyClaims.

Section KeyExamples.
Import Curses PyChar State Controller KeySpec.

Lemma read_key_after_escape_witness :
  option_map keychord (read_key sample_keyname (typed [27; 102]))
  = Some [Py.s "M-f"]
  /\ option_map keychord (read_key sample_keyname (typed [27; 6]))
     = Some [Py.s "C-M-f"]
  /\ option_map keychord (read_key sample_keyname (typed [27]))
     = Some [Py.s "M-ESC"].
Proof.
  split; [|split].
  - rewrite (read_key_after_escape sample_keyname (typed [27; 102])
                                   [102] eq_refl).
    reflexivity.
  - rewrite (read_key_after_escape sample_keyname (typed [27; 6])
                                   [6] eq_refl).
    reflexivity.
  - rewrite (read_key_after_escape sample_keyname (typed [27])
                                   [] eq_refl).
    reflexivity.
Defined.

(** C4, as stated, fails on both counts: after the escape code a ready
    control code such as 6 gives "C-M-f", not "M-" before the table's
    "C-f", and with no second code ready the token is "M-ESC", not
    "ESC". *)
Lemma read_key_after_escape_counterexample :
  ~ (forall st c rest,
        pending (window st) = 27 :: c :: rest ->
        exists st',
          read_key sample_keyname st = Some st'
          /\ keychord st'
             = keychord st ++ [stated_meta_token sample_keyname [c]])
  /\ ~ (forall st,
          pending (window st) = [27] ->
          exists st',
            read_key sample_keyname st = Some st'
            /\ keychord st'
               = keychord st ++ [stated_meta_token sample_keyname []]).
Proof.
  split; intros H.
  - destruct (H (typed [27; 6]) 6 [] eq_refl) as (st' & Hrun & Hk).
    vm_compute in Hrun. injection Hrun as <-.
    vm_compute in Hk. discriminate Hk.
  - destruct (H (typed [27]) eq_refl) as (st' & Hrun & Hk).
    vm_compute in Hrun. injection Hrun as <-.
    vm_compute in Hk. discriminate Hk.
Qed.
End KeyExamples.

(** * Further properties of the buffer primitives *)

Section BufferExtras.
Import Buff BuffSpec.
Implicit Types (b : Buffer) (s t : Py.str) (n : Z).

Lemma buffer_ext b b' :
  text b = text b' -> modified b = modified b' -> point b = point b' ->
  mark b = mark b' -> name b = name b' -> path b = path b' ->
  display_line b = display_line b' -> b = b'.
Proof.
  destruct b, b'. cbn. intros; subst. reflexivity.
Qed.

(** The fields no primitive writes. *)
Lemma insert_frame b args :
  modified (snd (insert b args)) = modified b
  /\ name (snd (insert b args)) = name b
  /\ path (snd (insert b args)) = path b
  /\ display_line (snd (insert b args)) = display_line b.
Proof.
  unfold insert. cbn [snd]. destruct (mark b >? point b); cbn; auto.
Qed.

Lemma delete_char_frame b n :
  modified (snd (delete_char b n)) = modified b
  /\ name (snd (delete_char b n)) = name b
  /\ path (snd (delete_char b n)) = path b
  /\ display_line (snd (delete_char b n)) = display_line b.
Proof.
  unfold delete_char. cbn [fst snd].
  set (c := _normalize_pos b (point b + n)).
  destruct (n <? 0); cbn [mark with_point with_text];
    destruct ((Z.min (point b) c <=? mark b)
              && (mark b <=? Z.max (point b) c));
    try destruct (mark b >? Z.max (point b) c); cbn; auto.
Qed.

Lemma firstn_plus {A : Type} (l : list A) (j k : nat) :
  firstn (j + k) l = firstn j l ++ firstn k (skipn j l).
Proof.
  revert l. induction j as [|j IH]; intros [|x l]; cbn;
    try reflexivity.
  - now rewrite firstn_nil.
  - now rewrite IH.
Qed.

(** Putting a span back where it was cut out. *)
Lemma splice_cut {A : Type} (l : list A) a c :
  0 <= a -> a <= c -> c <= Py.len l ->
  firstn (Z.to_nat a) (cut a c l)
  ++ firstn (Z.to_nat (c - a)) (skipn (Z.to_nat a) l)
  ++ skipn (Z.to_nat a) (cut a c l) = l.
Proof.
  intros Ha Hac Hc. unfold cut.
  rewrite firstn_app_exact by (apply len_firstn; lia).
  rewrite skipn_app_exact by (apply len_firstn; lia).
  replace (Z.to_nat c) with (Z.to_nat (c - a) + Z.to_nat a)%nat by lia.
  rewrite <- skipn_skipn.
  rewrite firstn_skipn. apply firstn_skipn.
Qed.

(** The point after any deletion is the start of the deleted span. *)
Lemma delete_char_point_start b n :
  point_in_bounds b ->
  point (snd (delete_char b n))
  = Z.min (point b) (_normalize_pos b (point b + n)).
Proof.
  intros Hp. destruct (delete_char_fields b n Hp) as (_ & Hpt & _).
  rewrite Hpt. unfold point_in_bounds in Hp.
  pose proof (normalize_pos_range b (point b + n)).
  unfold _normalize_pos in *. destruct (Z.ltb_spec n 0); lia.
Qed.

(** For a buffer within bounds, [delete_region] returns the text from the
    smaller to the larger of point and mark, removes it, and leaves point
    and mark at the smaller one. *)
Theorem delete_region_postconditions b :
  in_bounds b ->
  let start := Z.min (point b) (mark b) in
  let end_ := Z.max (point b) (mark b) in
  fst (delete_region b)
  = firstn (Z.to_nat (end_ - start)) (skipn (Z.to_nat start) (text b))
  /\ text (snd (delete_region b))
     = firstn (Z.to_nat start) (text b) ++ skipn (Z.to_nat end_) (text b)
  /\ point (snd (delete_region b)) = start
  /\ mark (snd (delete_region b)) = start
  /\ Py.len (text (snd (delete_region b)))
     = Py.len (text b) - Z.abs (point b - mark b).
Proof.
  intros [Hp Hm] start end_.
  unfold point_in_bounds, mark_in_bounds in *.
  unfold delete_region. cbn [fst snd text point mark with_text with_point
                             with_mark]. fold start. fold end_.
  assert (Hs : 0 <= start /\ start <= end_ /\ end_ <= Py.len (text b))
    by (subst start end_; lia).
  rewrite slice_mid_in, slice_to_in, slice_from_in by lia.
  repeat split.
  fold (cut start end_ (text b)). rewrite len_cut by lia.
  subst start end_. lia.
Qed.

Lemma delete_region_postconditions_witness :
  fst (delete_region hello_world) = Py.s " wo"
  /\ text (snd (delete_region hello_world)) = Py.s "hellorld"
  /\ point (snd (delete_region hello_world)) = 5
  /\ mark (snd (delete_region hello_world)) = 5.
Proof.
  destruct (delete_region_postconditions hello_world)
    as (Hr & Ht & Hp & Hm & _); [split; hnf; cbn; lia|].
  split; [|split; [|split]]; [exact Hr | exact Ht | exact Hp | exact Hm].
Defined.

(** Inserting what [delete_char] returned, right after the deletion, gives
    the text back, with point after the restored characters. *)
Theorem delete_char_then_insert_back b n :
  point_in_bounds b ->
  text (snd (insert (snd (delete_char b n)) [fst (delete_char b n)]))
  = text b
  /\ point (snd (insert (snd (delete_char b n)) [fst (delete_char b n)]))
     = Z.max (point b) (clamp (Py.len (text b)) (point b + n)).
Proof.
  intros Hp. rewrite <- normalize_pos_clamp.
  pose proof (normalize_pos_range b (point b + n)) as Hc.
  set (c := _normalize_pos b (point b + n)) in *.
  set (start := Z.min (point b) c). set (end_ := Z.max (point b) c).
  assert (Hs : 0 <= start /\ start <= end_ /\ end_ <= Py.len (text b))
    by (unfold point_in_bounds in Hp; subst start end_; lia).
  destruct (delete_char_fields b n Hp) as (Hret & _ & _).
  fold c in Hret. fold start in Hret. fold end_ in Hret.
  rewrite slice_mid_in in Hret by lia.
  pose proof (delete_char_text b n Hp) as Ht. cbv zeta in Ht.
  fold c in Ht. fold start in Ht. fold end_ in Ht.
  pose proof (delete_char_point_start b n Hp) as Hpt.
  fold c in Hpt. fold start in Hpt.
  set (b1 := snd (delete_char b n)) in *.
  assert (Hp1 : point_in_bounds b1)
    by (unfold point_in_bounds; rewrite Hpt, Ht, len_cut; lia).
  destruct (insert_fields b1 [fst (delete_char b n)] Hp1)
    as (Ht2 & Hpt2 & _ & _).
  rewrite join_single in Ht2, Hpt2. split.
  - rewrite Ht2, Hpt, Ht, Hret. now apply splice_cut.
  - rewrite Hpt2, Hpt, Hret.
    rewrite len_firstn by (rewrite len_skipn; lia). lia.
Qed.

Lemma delete_char_then_insert_back_witness :
  text (snd (insert (snd (delete_char hello_world (-3)))
                    [fst (delete_char hello_world (-3))]))
  = Py.s "hello world"
  /\ point (snd (insert (snd (delete_char hello_world (-3)))
                        [fst (delete_char hello_world (-3))])) = 5.
Proof.
  apply (delete_char_then_insert_back hello_world (-3)). hnf; cbn; lia.
Defined.

(** Inserting what [delete_region] returned gives the text back as well. *)
Theorem delete_region_then_insert_back b :
  in_bounds b ->
  text (snd (insert (snd (delete_region b)) [fst (delete_region b)]))
  = text b
  /\ point (snd (insert (snd (delete_region b)) [fst (delete_region b)]))
     = Z.max (point b) (mark b).
Proof.
  intros Hb. pose proof Hb as [Hp Hm].
  unfold point_in_bounds, mark_in_bounds in Hp, Hm.
  destruct (delete_region_in_bounds b Hb) as [Hp1 _].
  set (start := Z.min (point b) (mark b)).
  set (end_ := Z.max (point b) (mark b)).
  assert (Hs : 0 <= start /\ start <= end_ /\ end_ <= Py.len (text b))
    by (subst start end_; lia).
  assert (Hret : fst (delete_region b)
                 = firstn (Z.to_nat (end_ - start))
                          (skipn (Z.to_nat start) (text b)))
    by (unfold delete_region; cbn [fst]; apply slice_mid_in; lia).
  assert (Ht : text (snd (delete_region b)) = cut start end_ (text b)).
  { unfold delete_region. cbn [snd text with_text with_point with_mark].
    fold start. fold end_. unfold cut.
    now rewrite slice_to_in, slice_from_in by lia. }
  assert (Hpt : point (snd (delete_region b)) = start) by reflexivity.
  destruct (insert_fields (snd (delete_region b)) [fst (delete_region b)]
                          Hp1) as (Ht2 & Hpt2 & _ & _).
  rewrite join_single in Ht2, Hpt2. split.
  - rewrite Ht2, Hpt, Ht, Hret. now apply splice_cut.
  - rewrite Hpt2, Hpt, Hret.
    rewrite len_firstn by (rewrite len_skipn; lia). lia.
Qed.

Lemma delete_region_then_insert_back_witness :
  text (snd (insert (snd (delete_region hello_world))
                    [fst (delete_region hello_world)]))
  = Py.s "hello world".
Proof.
  apply (delete_region_then_insert_back hello_world). split; hnf; cbn; lia.
Defined.

(** Setting the mark at point, inserting a string and deleting the region
    undoes the insertion: the region is the string, and text and point are
    as before. *)
Theorem mark_insert_delete_region b s :
  point_in_bounds b ->
  let b1 := snd (insert (set_mark b (point b)) [s]) in
  fst (delete_region b1) = s
  /\ text (snd (delete_region b1)) = text b
  /\ point (snd (delete_region b1)) = point b
  /\ mark (snd (delete_region b1)) = point b.
Proof.
  intros Hp b1. pose proof Hp as Hp'. unfold point_in_bounds in Hp'.
  pose proof (len_nonneg s) as Hs.
  set (b0 := set_mark b (point b)) in *.
  assert (Hm0 : mark b0 = point b)
    by (unfold b0, set_mark; cbn; now apply normalize_pos_id).
  assert (Hp0 : point_in_bounds b0) by exact Hp.
  destruct (insert_fields b0 [s] Hp0) as (Ht & Hpt & Hmk & _).
  rewrite join_single in Ht, Hpt, Hmk. fold b1 in Ht, Hpt, Hmk.
  change (point b0) with (point b) in Ht, Hpt, Hmk.
  change (text b0) with (text b) in Ht.
  rewrite Hm0 in Hmk.
  replace (point b >? point b) with false in Hmk
    by (symmetry; rewrite Z.gtb_ltb; apply Z.ltb_irrefl).
  assert (Hlen : Py.len (text b1) = Py.len (text b) + Py.len s)
    by (unfold b1; rewrite insert_len_text, join_single; reflexivity).
  clearbody b1. unfold delete_region.
  cbn [fst snd text point mark with_text with_point with_mark].
  rewrite Hpt, Hmk.
  replace (Z.min (point b + Py.len s) (point b)) with (point b) by lia.
  replace (Z.max (point b + Py.len s) (point b))
    with (point b + Py.len s) by lia.
  rewrite slice_mid_in, slice_to_in, slice_from_in by lia.
  rewrite Ht. split; [|split; [|split]]; try reflexivity.
  - rewrite skipn_app_exact by (apply len_firstn; lia).
    replace (point b + Py.len s - point b) with (Py.len s) by lia.
    now apply firstn_app_exact.
  - rewrite firstn_app_exact by (apply len_firstn; lia).
    rewrite app_assoc, skipn_app_exact
      by (rewrite len_app, len_firstn; lia).
    apply firstn_skipn.
Qed.

Lemma mark_insert_delete_region_witness :
  fst (delete_region (snd (insert (set_mark hello_world 5) [Py.s "XY"])))
  = Py.s "XY"
  /\ text (snd (delete_region
                  (snd (insert (set_mark hello_world 5) [Py.s "XY"]))))
     = Py.s "hello world".
Proof.
  destruct (mark_insert_delete_region hello_world (Py.s "XY"))
    as (Hr & Ht & _); [hnf; cbn; lia|].
  split; [exact Hr | exact Ht].
Defined.

Lemma insert_point_in_bounds b args :
  point_in_bounds b -> point_in_bounds (snd (insert b args)).
Proof.
  intros Hp. destruct (insert_fields b args Hp) as (_ & Hpt & _ & _).
  pose proof (len_nonneg (Py.join_empty args)).
  unfold point_in_bounds in *. rewrite Hpt, insert_len_text. lia.
Qed.

(** Two insertions in a row are one insertion of the two strings joined:
    the same buffer results, and the two returned strings make up the one
    returned. *)
Theorem insert_insert b args1 args2 :
  point_in_bounds b ->
  snd (insert (snd (insert b args1)) args2) = snd (insert b (args1 ++ args2))
  /\ fst (insert b args1) ++ fst (insert (snd (insert b args1)) args2)
     = fst (insert b (args1 ++ args2)).
Proof.
  intros Hp. pose proof (insert_point_in_bounds b args1 Hp) as Hp1.
  assert (Hjoin : Py.join_empty (args1 ++ args2)
                  = Py.join_empty args1 ++ Py.join_empty args2)
    by apply concat_app.
  destruct (insert_fields b args1 Hp) as (Ht1 & Hpt1 & Hmk1 & Hr1).
  destruct (insert_fields b (args1 ++ args2) Hp) as (Ht & Hpt & Hmk & Hr).
  destruct (insert_frame b args1) as (Hf1 & Hf2 & Hf3 & Hf4).
  destruct (insert_frame b (args1 ++ args2)) as (Hg1 & Hg2 & Hg3 & Hg4).
  set (b1 := snd (insert b args1)) in *.
  destruct (insert_fields b1 args2 Hp1) as (Ht2 & Hpt2 & Hmk2 & Hr2).
  destruct (insert_frame b1 args2) as (Hh1 & Hh2 & Hh3 & Hh4).
  pose proof Hp as Hp'. unfold point_in_bounds in Hp'.
  pose proof (len_nonneg (Py.join_empty args1)).
  pose proof (len_nonneg (Py.join_empty args2)).
  split; [|now rewrite Hr1, Hr2, Hr, Hjoin].
  apply buffer_ext; try congruence.
  - rewrite Ht2, Ht, Hpt1, Ht1, Hjoin.
    rewrite (app_assoc (firstn _ _) (Py.join_empty args1)).
    rewrite firstn_app_exact by (rewrite len_app, len_firstn; lia).
    rewrite skipn_app_exact by (rewrite len_app, len_firstn; lia).
    now rewrite <- !app_assoc.
  - rewrite Hpt2, Hpt, Hpt1, Hjoin, len_app. lia.
  - rewrite Hmk2, Hmk, Hmk1, Hpt1, Hjoin, len_app.
    destruct (Z.gtb_spec (mark b) (point b));
      match goal with
      | |- context [?x >? ?y] => destruct (Z.gtb_spec x y)
      end; lia.
Qed.

Lemma insert_insert_witness :
  snd (insert (snd (insert hello_world [Py.s ","])) [Py.s " big"])
  = snd (insert hello_world [Py.s ","; Py.s " big"])
  /\ text (snd (insert hello_world [Py.s ","; Py.s " big"]))
     = Py.s "hello, big world".
Proof.
  split; [|reflexivity].
  apply (insert_insert hello_world [Py.s ","] [Py.s " big"]).
  hnf; cbn; lia.
Defined.

Lemma delete_char_point_in_bounds b n :
  point_in_bounds b -> point_in_bounds (snd (delete_char b n)).
Proof.
  intros Hp. unfold point_in_bounds.
  rewrite (delete_char_point_start b n Hp), (delete_char_text b n Hp).
  pose proof (normalize_pos_range b (point b + n)).
  unfold point_in_bounds in Hp. rewrite len_cut by lia. lia.
Qed.

(** A span taken before the place of a cut is a span of the original. *)
Lemma span_before_cut {A : Type} (l : list A) a' a c :
  0 <= a' -> a' <= a -> a <= c -> c <= Py.len l ->
  firstn (Z.to_nat (a - a')) (skipn (Z.to_nat a') (cut a c l))
  = firstn (Z.to_nat (a - a')) (skipn (Z.to_nat a') l).
Proof.
  intros H0 H1 H2 H3. unfold cut, Py.len in *.
  rewrite skipn_app, length_firstn.
  replace (Z.to_nat a' - Nat.min (Z.to_nat a) (length l))%nat
    with 0%nat by lia.
  cbn [skipn]. rewrite firstn_app, length_skipn, length_firstn.
  replace (Z.to_nat (a - a')
           - (Nat.min (Z.to_nat a) (length l) - Z.to_nat a'))%nat
    with 0%nat by lia.
  cbn [firstn]. rewrite app_nil_r.
  rewrite firstn_all2 by (rewrite length_skipn, length_firstn; lia).
  rewrite firstn_skipn_comm. do 2 f_equal. lia.
Qed.

Ltac split_tests :=
  repeat match goal with
         | |- context [?x <=? ?y] => destruct (Z.leb_spec x y)
         | |- context [?x >? ?y] => destruct (Z.gtb_spec x y)
         | |- context [?x <? ?y] => destruct (Z.ltb_spec x y)
         end; cbn [andb].

(** Two deletions in the same direction are one deletion of the two counts
    added: the same buffer results, and the returned texts, in text order,
    make up the one returned.  This holds with clamping at either end. *)
Theorem delete_char_delete_char b n1 n2 :
  point_in_bounds b ->
  (0 <= n1 /\ 0 <= n2) \/ (n1 <= 0 /\ n2 <= 0) ->
  snd (delete_char (snd (delete_char b n1)) n2)
  = snd (delete_char b (n1 + n2))
  /\ (0 <= n1 -> 0 <= n2 ->
      fst (delete_char b n1) ++ fst (delete_char (snd (delete_char b n1)) n2)
      = fst (delete_char b (n1 + n2)))
  /\ (n1 <= 0 -> n2 <= 0 ->
      fst (delete_char (snd (delete_char b n1)) n2) ++ fst (delete_char b n1)
      = fst (delete_char b (n1 + n2))).
Proof.
  intros Hp Hdir. pose proof Hp as Hp'. unfold point_in_bounds in Hp'.
  pose proof (delete_char_point_in_bounds b n1 Hp) as Hp1.
  (* the first deletion *)
  pose proof (normalize_pos_range b (point b + n1)) as Hc1.
  pose proof (delete_char_text b n1 Hp) as Ht1. cbv zeta in Ht1.
  pose proof (delete_char_point_start b n1 Hp) as Hpt1.
  destruct (delete_char_fields b n1 Hp) as (Hr1 & _ & Hmk1).
  destruct (delete_char_frame b n1) as (Hf1 & Hf2 & Hf3 & Hf4).
  assert (Hn1 : _normalize_pos b (point b + n1)
                = Z.max 0 (Z.min (point b + n1) (Py.len (text b))))
    by reflexivity.
  set (c1 := _normalize_pos b (point b + n1)) in *.
  set (s1 := Z.min (point b) c1) in *. set (e1 := Z.max (point b) c1) in *.
  rewrite slice_mid_in in Hr1 by (subst s1 e1; lia).
  (* the deletion of both counts *)
  pose proof (normalize_pos_range b (point b + (n1 + n2))) as Hc.
  pose proof (delete_char_text b (n1 + n2) Hp) as Ht. cbv zeta in Ht.
  pose proof (delete_char_point_start b (n1 + n2) Hp) as Hpt.
  destruct (delete_char_fields b (n1 + n2) Hp) as (Hr & _ & Hmk).
  destruct (delete_char_frame b (n1 + n2)) as (Hg1 & Hg2 & Hg3 & Hg4).
  assert (Hn : _normalize_pos b (point b + (n1 + n2))
               = Z.max 0 (Z.min (point b + (n1 + n2)) (Py.len (text b))))
    by reflexivity.
  set (c := _normalize_pos b (point b + (n1 + n2))) in *.
  set (s0 := Z.min (point b) c) in *. set (e0 := Z.max (point b) c) in *.
  rewrite slice_mid_in in Hr by (subst s0 e0; lia).
  (* the second deletion *)
  set (b1 := snd (delete_char b n1)) in *.
  assert (Hlen1 : Py.len (text b1) = Py.len (text b) - (e1 - s1))
    by (rewrite Ht1, len_cut; subst s1 e1; lia).
  pose proof (normalize_pos_range b1 (point b1 + n2)) as Hc2.
  pose proof (delete_char_text b1 n2 Hp1) as Ht2. cbv zeta in Ht2.
  pose proof (delete_char_point_start b1 n2 Hp1) as Hpt2.
  destruct (delete_char_fields b1 n2 Hp1) as (Hr2 & _ & Hmk2).
  destruct (delete_char_frame b1 n2) as (Hh1 & Hh2 & Hh3 & Hh4).
  assert (Hn2 : _normalize_pos b1 (point b1 + n2)
                = Z.max 0 (Z.min (s1 + n2) (Py.len (text b) - (e1 - s1))))
    by (unfold _normalize_pos; now rewrite Hlen1, Hpt1).
  set (c2 := _normalize_pos b1 (point b1 + n2)) in *.
  rewrite Hpt1 in Ht2, Hpt2, Hr2, Hmk2.
  set (s2 := Z.min s1 c2) in *. set (e2 := Z.max s1 c2) in *.
  rewrite slice_mid_in in Hr2 by (subst s2 e2; lia).
  assert (Hs : s2 = s0) by (subst s2 s0 s1 e1; lia).
  assert (He : e2 + (e1 - s1) = e0) by (subst e2 e0 s1 e1; lia).
  assert (Htext : text (snd (delete_char b1 n2)) = cut s0 e0 (text b)).
  { rewrite Ht2, Ht1, cut_cut by (subst s2 e2 s1 e1; lia).
    now rewrite Hs, He. }
  split; [|split].
  - apply buffer_ext; try congruence.
    rewrite Hmk2, Hmk, Hs.
    replace (e2 - s0) with (e0 - s0 - (e1 - s1)) by lia.
    assert (Hord : s0 <= s1 /\ s1 <= e1 /\ s1 <= e2)
      by (subst s2 e2 s0 s1 e1; lia).
    revert Hmk1. generalize (mark b1) as m1.
    clear - He Hord. intros m1.
    split_tests; intros Hmk1; lia.
  - intros H1 H2. rewrite Hr1, Hr2, Hr, Ht1.
    assert (s1 = point b /\ s2 = point b /\ s0 = point b)
      as (-> & -> & ->) by (subst s2 s0 s1; lia).
    unfold cut. rewrite skipn_app_exact by (apply len_firstn; lia).
    replace (Z.to_nat e1)
      with (Z.to_nat (e1 - point b) + Z.to_nat (point b))%nat by lia.
    rewrite <- skipn_skipn, <- firstn_plus. do 2 f_equal. lia.
  - intros H1 H2. rewrite Hr1, Hr2, Hr, Ht1.
    assert (e1 = point b /\ e2 = s1 /\ e0 = point b)
      as (-> & -> & ->) by (subst e2 e0 e1 s1; lia).
    rewrite Hs in *. rewrite span_before_cut by lia.
    replace (Z.to_nat s1)
      with (Z.to_nat (s1 - s0) + Z.to_nat s0)%nat by lia.
    rewrite <- skipn_skipn, <- firstn_plus. do 2 f_equal. lia.
Qed.

Lemma delete_char_delete_char_witness :
  snd (delete_char (snd (delete_char hello_world 2)) 30)
  = snd (delete_char hello_world 32)
  /\ snd (delete_char (snd (delete_char hello_world (-1))) (-2))
     = snd (delete_char hello_world (-3)).
Proof.
  split.
  - apply (delete_char_delete_char hello_world 2 30);
      [hnf; cbn; lia | left; lia].
  - apply (delete_char_delete_char hello_world (-1) (-2));
      [hnf; cbn; lia | right; lia].
Defined.

(** A forward count that reaches or passes the end of the text deletes
    everything after point and nothing else; point stays. *)
Theorem delete_char_to_end b n :
  point_in_bounds b ->
  Py.len (text b) - point b <= n ->
  fst (delete_char b n) = skipn (Z.to_nat (point b)) (text b)
  /\ text (snd (delete_char b n)) = firstn (Z.to_nat (point b)) (text b)
  /\ point (snd (delete_char b n)) = point b
  /\ point (snd (delete_char b n)) = Py.len (text (snd (delete_char b n))).
Proof.
  intros Hp Hn. pose proof Hp as Hp'. unfold point_in_bounds in Hp'.
  assert (Hc : _normalize_pos b (point b + n) = Py.len (text b))
    by (unfold _normalize_pos; lia).
  pose proof (delete_char_text b n Hp) as Ht. cbv zeta in Ht.
  pose proof (delete_char_point_start b n Hp) as Hpt.
  destruct (delete_char_fields b n Hp) as (Hr & _ & _).
  rewrite Hc in Ht, Hpt, Hr.
  replace (Z.min (point b) (Py.len (text b))) with (point b) in * by lia.
  replace (Z.max (point b) (Py.len (text b)))
    with (Py.len (text b)) in * by lia.
  assert (Hcut : cut (point b) (Py.len (text b)) (text b)
                 = firstn (Z.to_nat (point b)) (text b)).
  { unfold cut, Py.len. rewrite Nat2Z.id, skipn_all. apply app_nil_r. }
  rewrite Ht, Hpt, Hr, Hcut. split; [|split; [|split]]; try reflexivity.
  - rewrite slice_mid_in by lia. apply firstn_all2.
    rewrite length_skipn. unfold Py.len. lia.
  - now rewrite len_firstn.
Qed.

Lemma delete_char_to_end_witness :
  fst (delete_char hello_world 1000) = Py.s " world"
  /\ text (snd (delete_char hello_world 1000)) = Py.s "hello".
Proof.
  destruct (delete_char_to_end hello_world 1000) as (Hr & Ht & _);
    [hnf; cbn; lia | cbn; lia |].
  split; [exact Hr | exact Ht].
Defined.

(** A backward count that reaches or passes the start of the text deletes
    everything before point and nothing else; point ends at 0. *)
Theorem delete_char_to_start b n :
  point_in_bounds b ->
  n <= - point b ->
  fst (delete_char b n) = firstn (Z.to_nat (point b)) (text b)
  /\ text (snd (delete_char b n)) = skipn (Z.to_nat (point b)) (text b)
  /\ point (snd (delete_char b n)) = 0.
Proof.
  intros Hp Hn. pose proof Hp as Hp'. unfold point_in_bounds in Hp'.
  assert (Hc : _normalize_pos b (point b + n) = 0)
    by (unfold _normalize_pos; lia).
  pose proof (delete_char_text b n Hp) as Ht. cbv zeta in Ht.
  pose proof (delete_char_point_start b n Hp) as Hpt.
  destruct (delete_char_fields b n Hp) as (Hr & _ & _).
  rewrite Hc in Ht, Hpt, Hr.
  replace (Z.min (point b) 0) with 0 in * by lia.
  replace (Z.max (point b) 0) with (point b) in * by lia.
  rewrite Ht, Hpt, Hr. split; [|split]; try reflexivity.
  rewrite slice_mid_in by lia. cbn [Z.to_nat skipn].
  now rewrite Z.sub_0_r.
Qed.

Lemma delete_char_to_start_witness :
  fst (delete_char hello_world (-1000)) = Py.s "hello"
  /\ text (snd (delete_char hello_world (-1000))) = Py.s " world"
  /\ point (snd (delete_char hello_world (-1000))) = 0.
Proof.
  apply (delete_char_to_start hello_world (-1000));
    [hnf; cbn; lia | cbn; lia].
Defined.

(** Inserting no string or the empty string changes nothing in any buffer,
    and neither does deleting zero characters when point is within the
    text; each returns the empty string. *)
Theorem empty_edits b :
  insert b [] = ([], b)
  /\ insert b [[]] = ([], b)
  /\ (point_in_bounds b -> delete_char b 0 = ([], b)).
Proof.
  assert (Hins : forall args, Py.join_empty args = [] ->
                              insert b args = ([], b)).
  { intros args Hj. unfold insert. rewrite Hj. f_equal. cbn [app Py.len length
      Z.of_nat]. rewrite slice_split, !Z.add_0_r.
    destruct b; cbn. now destruct (mark0 >? point0). }
  split; [|split]; try (apply Hins; reflexivity).
  intros Hp. pose proof Hp as Hp'. unfold point_in_bounds in Hp'.
  assert (Hc : _normalize_pos b (point b + 0) = point b)
    by (rewrite normalize_pos_id; lia).
  pose proof (delete_char_text b 0 Hp) as Ht. cbv zeta in Ht.
  pose proof (delete_char_point_start b 0 Hp) as Hpt.
  destruct (delete_char_fields b 0 Hp) as (Hr & _ & Hmk).
  destruct (delete_char_frame b 0) as (Hf1 & Hf2 & Hf3 & Hf4).
  rewrite Hc, Z.min_id, Z.max_id in *.
  rewrite (surjective_pairing (delete_char b 0)). f_equal.
  - rewrite Hr. apply slice_same.
  - apply buffer_ext; try assumption.
    + rewrite Ht. unfold cut. apply firstn_skipn.
    + rewrite Hmk. split_tests; lia.
Qed.

Lemma empty_edits_witness : delete_char hello_world 0 = ([], hello_world).
Proof.
  apply (proj2 (proj2 (empty_edits hello_world))). hnf; cbn; lia.
Defined.
End BufferExtras.

(** * Further properties of the controller *)

Section ControllerExtras.
Import Buff BuffView Curses PyChar State Controller KeySpec ViewSpec.
Variable keyname : Z -> Py.str.

(** [read_key] on any queue that is not empty. *)
Lemma read_key_result st c rest :
  pending (window st) = c :: rest ->
  read_key keyname st
  = Some (with_keychord
            (with_window st
               (mkWindow (if c =? 27 then tl rest else rest) false))
            (keychord st
             ++ [if c =? 27
                 then match rest with
                      | c2 :: _ => fst (table_entry keyname c2) ++ Py.s "M-"
                                   ++ snd (table_entry keyname c2)
                      | [] => Py.s "M-ESC"
                      end
                 else table_token keyname c])).
Proof.
  intros H. unfold read_key. unfold getch at 1. rewrite H.
  cbn [bind app]. destruct (Z.eqb_spec c 27) as [->|Hc].
  - unfold getch, nodelay. cbn [pending nodelay_mode].
    destruct rest as [|c2 rest]; cbn [bind app tl].
    + replace (Py.index [27; -1] 0) with (Some 27) by reflexivity.
      cbn [bind]. change (27 =? 27) with true. cbv iota.
      replace (Py.index [27; -1] 1) with (Some (-1)) by reflexivity.
      cbn [bind]. rewrite handle_key_characters_table. reflexivity.
    + replace (Py.index [27; c2] 0) with (Some 27) by reflexivity.
      cbn [bind]. change (27 =? 27) with true. cbv iota.
      replace (Py.index [27; c2] 1) with (Some c2) by reflexivity.
      cbn [bind]. rewrite handle_key_characters_table.
      destruct (table_entry keyname c2) as [control face].
      reflexivity.
  - unfold nodelay. cbn [bind pending].
    replace (Py.index [c] 0) with (Some c) by reflexivity.
    cbn [bind]. destruct (Z.eqb_spec c 27) as [|_]; [contradiction|].
    cbn [bind]. rewrite handle_key_characters_table.
    unfold table_token. destruct (table_entry keyname c) as [control face].
    reflexivity.
Qed.

(** A first code other than 27 is one keystroke: [read_key] consumes that
    code alone, appends its token from the table (control prefix and key
    name) to the keychord and leaves the window in blocking mode. *)
Theorem read_key_single_code st c rest :
  pending (window st) = c :: rest ->
  c <> 27 ->
  read_key keyname st
  = Some (with_keychord (with_window st (mkWindow rest false))
                        (keychord st ++ [table_token keyname c])).
Proof.
  intros H Hc. rewrite (read_key_result st c rest H).
  destruct (Z.eqb_spec c 27); [contradiction | reflexivity].
Qed.

(** In blocking mode [read_key] returns exactly when a code is pending.
    When it returns it has appended one token to the keychord, consumed two
    codes after an escape code and one otherwise, left the window in
    blocking mode and touched nothing else: not the buffer, the terminal
    size, the echo string or the session flag. *)
Theorem read_key_progress st :
  nodelay_mode (window st) = false ->
  (read_key keyname st = None <-> pending (window st) = [])
  /\ (forall st',
        read_key keyname st = Some st' ->
        (exists token, keychord st' = keychord st ++ [token])
        /\ pending (window st')
           = (match pending (window st) with
              | 27 :: rest => tl rest
              | _ => tl (pending (window st))
              end)
        /\ nodelay_mode (window st') = false
        /\ active_buff st' = active_buff st
        /\ term_size st' = term_size st
        /\ State.echo st' = State.echo st
        /\ end_session st' = end_session st).
Proof.
  intros Hmode. destruct (pending (window st)) as [|c rest] eqn:Hq.
  - assert (Hnone : read_key keyname st = None).
    { unfold read_key, getch. now rewrite Hq, Hmode. }
    split; [tauto|]. intros st' Hrun. congruence.
  - pose proof (read_key_result st c rest Hq) as Hrun.
    split; [split; congruence|].
    intros st' Hst'. rewrite Hrun in Hst'. injection Hst' as <-.
    cbn [keychord window pending nodelay_mode active_buff term_size
         State.echo end_session with_keychord with_window].
    split; [eexists; reflexivity|].
    split; [|repeat split].
    destruct (Z.eqb_spec c 27) as [->|Hc]; [reflexivity|].
    destruct c as [|p|p]; try reflexivity.
    do 5 (try destruct p as [p|p|]); try reflexivity. contradiction.
Qed.
End ControllerExtras.

Section ControllerExamples.
Import Buff BuffView Curses PyChar State Controller KeySpec ViewSpec.

Lemma read_key_single_code_witness :
  read_key sample_keyname (typed [6; 97])
  = Some (with_keychord (with_window (typed [6; 97]) (mkWindow [97] false))
                        [Py.s "C-f"])
  /\ option_map keychord (read_key sample_keyname (typed [263]))
     = Some [Py.s "DEL"]
  /\ option_map keychord (read_key sample_keyname (typed [127]))
     = Some [Py.s "DEL"].
Proof.
  split; [|split].
  - apply (read_key_single_code sample_keyname (typed [6; 97]) 6 [97]);
      [reflexivity | discriminate].
  - rewrite (read_key_single_code sample_keyname (typed [263]) 263 []);
      [reflexivity | reflexivity | discriminate].
  - rewrite (read_key_single_code sample_keyname (typed [127]) 127 []);
      [reflexivity | reflexivity | discriminate].
Defined.

Lemma read_key_progress_witness :
  read_key sample_keyname (typed []) = None
  /\ read_key sample_keyname (typed [27; 98; 99]) <> None.
Proof.
  split.
  - apply (proj1 (read_key_progress sample_keyname (typed []) eq_refl)).
    reflexivity.
  - intros H.
    apply (proj1 (read_key_progress sample_keyname (typed [27; 98; 99])
                                    eq_refl)) in H.
    discriminate H.
Defined.

(** When point's line is on one of the lines the check accepts, from
    displayLine up to displayLine + viewportHeight - 3, nothing is
    scrolled. *)
Lemma ensure_valid_point_in_view st :
  display_line (active_buff st) <= line (active_buff st)
  < display_line (active_buff st) + viewport_height st - 2 ->
  _ensure_valid_point st = st.
Proof.
  intros H. rewrite ensure_valid_point_display_line. cbv zeta.
  destruct (Z.ltb_spec (line (active_buff st))
                       (display_line (active_buff st))); [lia|].
  rewrite Z.geb_leb.
  destruct (Z.leb_spec (display_line (active_buff st)
                        + viewport_height st - 2)
                       (line (active_buff st))); [lia|].
  rewrite Z.add_0_r. destruct st as [b k w t e s]. destruct b.
  reflexivity.
Qed.

(** In a viewport of at least three lines [_ensure_valid_point] scrolls by
    the least amount: a point above the view becomes the first displayed
    line, a point on or below line displayLine + viewportHeight - 2 becomes
    the line displayLine + viewportHeight - 3 of the new view, and a point
    in between leaves the editor unchanged. *)
Theorem ensure_valid_point_placement st :
  3 <= viewport_height st ->
  let b := active_buff st in
  let h := viewport_height st in
  _ensure_valid_point st
  = with_active_buff st
      (with_display_line b
         (if line b <? display_line b then line b
          else if line b >=? display_line b + h - 2 then line b - h + 3
          else display_line b))
  /\ (display_line b <= line b < display_line b + h - 2 ->
      _ensure_valid_point st = st).
Proof.
  intros Hh b h. split; [|apply ensure_valid_point_in_view].
  rewrite ensure_valid_point_display_line. cbv zeta. fold b. fold h.
  do 2 f_equal.
  destruct (Z.ltb_spec (line b) (display_line b)); rewrite Z.geb_leb;
    destruct (Z.leb_spec (display_line b + h - 2) (line b)); lia.
Qed.

Lemma ensure_valid_point_placement_witness :
  display_line
    (active_buff
       (_ensure_valid_point (editor (with_display_line BuffSpec.hello_world 9) 4)))
  = 0.
Proof.
  destruct (ensure_valid_point_placement
              (editor (with_display_line BuffSpec.hello_world 9) 4)) as [H _];
    [cbn; lia|].
  rewrite H. reflexivity.
Defined.

(** In a viewport of at least three lines a second check right after the
    first finds nothing to scroll. *)
Theorem ensure_valid_point_idempotent st :
  3 <= viewport_height st ->
  _ensure_valid_point (_ensure_valid_point st) = _ensure_valid_point st.
Proof.
  intros Hh. apply ensure_valid_point_in_view.
  rewrite ensure_valid_point_display_line. cbv zeta.
  set (b := active_buff st). set (h := viewport_height st) in *.
  unfold viewport_height.
  cbn [active_buff with_active_buff term_size display_line
       with_display_line].
  rewrite line_with_display_line. change (fst (term_size st)) with h.
  destruct (Z.ltb_spec (line b) (display_line b)); rewrite Z.geb_leb;
    destruct (Z.leb_spec (display_line b + h - 2) (line b)); lia.
Qed.

Lemma ensure_valid_point_idempotent_witness :
  _ensure_valid_point
    (_ensure_valid_point (editor (with_display_line BuffSpec.hello_world 9) 4))
  = _ensure_valid_point (editor (with_display_line BuffSpec.hello_world 9) 4).
Proof.
  apply ensure_valid_point_idempotent. cbn. lia.
Defined.
End ControllerExamples.

(** * Properties of the editing commands *)

Section CommandFacts.
Import Buff BuffSpec State Re BasicEditing Commands MoveSpec CommandSpec.
Implicit Types (st : Ihmacs) (n : Z).

Lemma moved_to_point st : moved_to st (point (active_buff st)) = st.
Proof. destruct st as [b k w t e s]. destruct b. reflexivity. Qed.

Lemma moved_to_moved_to st q q' : moved_to (moved_to st q) q' = moved_to st q'.
Proof. reflexivity. Qed.

(** A command that sets point lands on the offset bounded to the text. *)
Lemma set_point_moved_to st pos :
  with_active_buff st (set_point (active_buff st) pos)
  = moved_to st (clamp (Py.len (text (active_buff st))) pos).
Proof.
  unfold set_point, moved_to. now rewrite normalize_pos_clamp.
Qed.

Lemma clamp_range hi x : 0 <= hi -> 0 <= clamp hi x <= hi.
Proof.
  intros H. unfold clamp.
  destruct (Z.ltb_spec x 0); [lia|]. destruct (Z.ltb_spec hi x); lia.
Qed.

Lemma clamp_id hi x : 0 <= x <= hi -> clamp hi x = x.
Proof.
  intros H. unfold clamp.
  destruct (Z.ltb_spec x 0); [lia|]. destruct (Z.ltb_spec hi x); lia.
Qed.

(** The last element of a list that ends with [x] is what index -1 reads. *)
Lemma index_last {A : Type} (l : list A) (x : A) :
  Py.index (l ++ [x]) (-1) = Some x.
Proof.
  change (-1) with (Z.opp 1).
  rewrite (index_from_end (l ++ [x]) 1) by lia.
  rewrite rev_app_distr. reflexivity.
Qed.

(** Moving forward by a count and backward by the same count returns to
    where point was, as long as the move stays inside the text; a move that
    would leave the text stops at its end or its start. *)
Theorem forward_char_backward_char st n :
  point_in_bounds (active_buff st) ->
  let p := point (active_buff st) in
  let len := Py.len (text (active_buff st)) in
  forward_char st n = moved_to st (clamp len (p + n))
  /\ backward_char st n = moved_to st (clamp len (p - n))
  /\ (0 <= p + n <= len -> backward_char (forward_char st n) n = st)
  /\ (0 <= p - n <= len -> forward_char (backward_char st n) n = st).
Proof.
  intros Hp p len. unfold point_in_bounds in Hp. fold p len in Hp.
  assert (Hf : forall m, forward_char st m = moved_to st (clamp len (p + m)))
    by (intros m; apply set_point_moved_to).
  assert (Hb : forall m, backward_char st m
                         = moved_to st (clamp len (p - m)))
    by (intros m; apply set_point_moved_to).
  split; [apply Hf|]. split; [apply Hb|]. split; intros Hin.
  - rewrite Hf, clamp_id by lia.
    unfold backward_char. rewrite set_point_moved_to.
    cbn [moved_to active_buff with_active_buff point text with_point].
    fold len. rewrite clamp_id by lia.
    replace (p + n - n) with p by lia.
    rewrite moved_to_moved_to. apply moved_to_point.
  - rewrite Hb, clamp_id by lia.
    unfold forward_char. rewrite set_point_moved_to.
    cbn [moved_to active_buff with_active_buff point text with_point].
    fold len. rewrite clamp_id by lia.
    replace (p - n + n) with p by lia.
    rewrite moved_to_moved_to. apply moved_to_point.
Qed.

Lemma forward_char_backward_char_witness :
  backward_char (forward_char (ViewSpec.editor hello_world 24) 6) 6
  = ViewSpec.editor hello_world 24
  /\ forward_char (ViewSpec.editor hello_world 24) 100
     = moved_to (ViewSpec.editor hello_world 24) 11.
Proof.
  destruct (forward_char_backward_char (ViewSpec.editor hello_world 24) 6)
    as (_ & _ & Hrt & _); [hnf; cbn; lia|].
  split; [apply Hrt; cbn; lia|].
  apply (forward_char_backward_char (ViewSpec.editor hello_world 24) 100).
  hnf; cbn; lia.
Defined.

(** The buffer after [k] single newlines inserted one by one. *)
Lemma newline_iter st (k : nat) :
  point_in_bounds (active_buff st) ->
  let b := active_buff st in
  let b' := active_buff
              (Nat.iter k (fun st0 => insert st0 ["010"%char]) st) in
  text b' = firstn (Z.to_nat (point b)) (text b) ++ repeat "010"%char k
            ++ skipn (Z.to_nat (point b)) (text b)
  /\ point b' = point b + Z.of_nat k
  /\ mark b' = (if mark b >? point b then mark b + Z.of_nat k else mark b).
Proof.
  intros Hp b. pose proof Hp as Hp'. unfold point_in_bounds in Hp'.
  fold b in Hp'.
  induction k as [|k IH].
  - cbn [Nat.iter repeat app Z.of_nat]. fold b.
    rewrite firstn_skipn, !Z.add_0_r.
    split; [|split]; try reflexivity. now destruct (mark b >? point b).
  - cbv zeta in IH. destruct IH as (IHt & IHp & IHm).
    set (stk := Nat.iter k _ st) in *.
    change (Nat.iter (S k) (fun st0 => insert st0 ["010"%char]) st)
      with (insert stk ["010"%char]).
    unfold insert. cbn [active_buff with_active_buff].
    set (bk := active_buff stk) in *.
    assert (Hlen : Py.len (text bk) = Py.len (text b) + Z.of_nat k).
    { rewrite IHt, !len_app, len_firstn, len_skipn by lia.
      unfold Py.len at 1. rewrite repeat_length. lia. }
    assert (Hpk : point_in_bounds bk) by (unfold point_in_bounds; lia).
    match goal with
    | |- context [Buff.insert bk ?a] =>
        destruct (insert_fields bk a Hpk) as (Ht & Hpt & Hmk & _);
        change (Py.join_empty a) with ["010"%char] in Ht, Hpt, Hmk
    end.
    change (Py.len ["010"%char]) with 1 in Hpt, Hmk.
    rewrite Ht, Hpt, Hmk, IHp, IHm, IHt. split; [|split].
    + rewrite (app_assoc (firstn _ _) (repeat _ k)).
      rewrite firstn_app_exact
        by (rewrite len_app, len_firstn by lia; unfold Py.len at 1;
            rewrite repeat_length; lia).
      rewrite skipn_app_exact
        by (rewrite len_app, len_firstn by lia; unfold Py.len at 1;
            rewrite repeat_length; lia).
      rewrite <- app_assoc. f_equal. rewrite app_assoc. f_equal.
      symmetry. apply repeat_cons.
    + lia.
    + destruct (Z.gtb_spec (mark b) (point b));
        match goal with
        | |- context [?x >? ?y] => destruct (Z.gtb_spec x y)
        end; lia.
Qed.

(** [newline] with count num puts max(0, num) newline characters at
    point and moves point past them; the mark moves along when it was after
    point.  A count below 1 changes nothing. *)
Theorem newline_postconditions st num :
  point_in_bounds (active_buff st) ->
  let b := active_buff st in
  let b' := active_buff (newline st num) in
  text b' = firstn (Z.to_nat (point b)) (text b)
            ++ repeat "010"%char (Z.to_nat num)
            ++ skipn (Z.to_nat (point b)) (text b)
  /\ point b' = point b + Z.max 0 num
  /\ mark b' = (if mark b >? point b then mark b + Z.max 0 num else mark b)
  /\ (num <= 0 -> newline st num = st).
Proof.
  intros Hp b b'.
  destruct (newline_iter st (Z.to_nat num) Hp) as (Ht & Hpt & Hmk).
  fold b in Ht, Hpt, Hmk.
  replace (Z.of_nat (Z.to_nat num)) with (Z.max 0 num) in Hpt, Hmk by lia.
  split; [exact Ht|]. split; [exact Hpt|]. split; [exact Hmk|].
  intros Hn. unfold newline.
  replace (Z.to_nat num) with 0%nat by lia. reflexivity.
Qed.

Lemma newline_postconditions_witness :
  text (active_buff (newline (ViewSpec.editor hello_world 24) 2))
  = Py.s "hello" ++ ["010"%char; "010"%char] ++ Py.s " world"
  /\ point (active_buff (newline (ViewSpec.editor hello_world 24) 2)) = 7.
Proof.
  destruct (newline_postconditions (ViewSpec.editor hello_world 24) 2)
    as (Ht & Hp & _); [hnf; cbn; lia|].
  split; [exact Ht | exact Hp].
Defined.

Lemma table_token_printable keyname c :
  32 <= c <= 126 -> KeySpec.table_token keyname c = PyChar.chr c.
Proof.
  intros H. unfold KeySpec.table_token, KeySpec.table_entry.
  destruct (Z.eqb_spec c 0); [lia|].
  destruct (Z.leb_spec 1 c), (Z.leb_spec c 26); cbn [andb]; try lia.
  destruct (Z.leb_spec 28 c), (Z.leb_spec c 31); cbn [andb]; try lia.
  destruct (Z.leb_spec 32 c), (Z.leb_spec c 126); cbn [andb]; try lia.
  reflexivity.
Qed.

(** Typing a printable character: when the pending raw code is a printable
    ASCII code, [read_key] followed by [self_insert_command] puts that one
    character into the text at point, moves point past it and consumes the
    one code. *)
Theorem type_printable_character keyname st c rest :
  point_in_bounds (active_buff st) ->
  Curses.pending (window st) = c :: rest ->
  32 <= c <= 126 ->
  exists st1 st2,
    Controller.read_key keyname st = Some st1
    /\ self_insert_command st1 = Some st2
    /\ text (active_buff st2)
       = firstn (Z.to_nat (point (active_buff st))) (text (active_buff st))
         ++ PyChar.chr c
         ++ skipn (Z.to_nat (point (active_buff st)))
                  (text (active_buff st))
    /\ point (active_buff st2) = point (active_buff st) + 1
    /\ keychord st2 = keychord st ++ [PyChar.chr c]
    /\ Curses.pending (window st2) = rest.
Proof.
  intros Hp Hq Hc.
  pose proof (read_key_result keyname st c rest Hq) as Hrun.
  destruct (Z.eqb_spec c 27) as [|_]; [lia|].
  rewrite table_token_printable in Hrun by exact Hc.
  eexists. eexists. split; [exact Hrun|].
  unfold self_insert_command.
  cbn [keychord with_keychord with_window active_buff].
  rewrite index_last.
  destruct (insert_fields (active_buff st) [PyChar.chr c] Hp)
    as (Ht & Hpt & _ & _).
  rewrite join_single in Ht, Hpt.
  split; [reflexivity|].
  cbn [active_buff with_active_buff keychord window with_keychord
       with_window Curses.pending].
  rewrite Ht, Hpt. repeat split.
Qed.

Lemma type_printable_character_witness :
  exists st1 st2,
    Controller.read_key KeySpec.sample_keyname
      (with_window (ViewSpec.editor hello_world 24)
                   (Curses.mkWindow [33; 97] false)) = Some st1
    /\ self_insert_command st1 = Some st2
    /\ text (active_buff st2) = Py.s "hello! world"
    /\ point (active_buff st2) = 6.
Proof.
  destruct (type_printable_character
              KeySpec.sample_keyname
              (with_window (ViewSpec.editor hello_world 24)
                           (Curses.mkWindow [33; 97] false)) 33 [97])
    as (st1 & st2 & H1 & H2 & Ht & Hp & _);
    [hnf; cbn; lia | reflexivity | lia |].
  exists st1, st2. repeat split; assumption.
Defined.

(** [self_insert_command] on an empty keychord raises, and otherwise
    inserts the last token of the keychord, whatever came before it. *)
Lemma self_insert_command_last st :
  (keychord st = [] -> self_insert_command st = None)
  /\ (forall strokes token,
        keychord st = strokes ++ [token] ->
        self_insert_command st = Some (insert st token)).
Proof.
  split.
  - intros H. unfold self_insert_command. now rewrite H.
  - intros strokes token H. unfold self_insert_command.
    now rewrite H, index_last.
Qed.
End CommandFacts.

(** ** Runs of a character class, the matches of the newline pattern *)

Section RunsFacts.
Import Re MoveSpec CommandSpec.
Variable cls : ascii -> bool.

Lemma len_cons {A : Type} (x : A) (l : list A) :
  Py.len (x :: l) = Py.len l + 1.
Proof. unfold Py.len. cbn [length]. lia. Qed.

(** Every run lies between the first offset it may start at and the end of
    the text scanned. *)
Lemma runs_from_bounds t :
  forall i opened lo,
    lo <= i ->
    (forall a, opened = Some a -> lo <= a <= i) ->
    Forall (fun m => lo <= start m /\ start m <= end_ m
                     /\ end_ m <= i + Py.len t)
           (runs_from cls t i opened).
Proof.
  induction t as [|c rest IH]; intros i opened lo Hlo Hop; cbn [runs_from].
  - destruct opened as [a|]; constructor; [|constructor].
    cbn. specialize (Hop a eq_refl). unfold Py.len. cbn. lia.
  - rewrite len_cons. destruct (cls c).
    + eapply Forall_impl; [|apply (IH (i + 1) _ lo)].
      * cbn beta. intros m Hm. lia.
      * lia.
      * intros a Ha. destruct opened as [a0|]; injection Ha as <-.
        -- specialize (Hop a0 eq_refl). lia.
        -- lia.
    + assert (Hrest : Forall (fun m => lo <= start m /\ start m <= end_ m
                                       /\ end_ m <= i + (Py.len rest + 1))
                             (runs_from cls rest (i + 1) None)).
      { eapply Forall_impl; [|apply (IH (i + 1) None lo)].
        - cbn beta. intros m Hm. lia.
        - lia.
        - discriminate. }
      destruct opened as [a|]; [constructor|]; try exact Hrest.
      cbn. specialize (Hop a eq_refl). pose proof (len_nonneg rest). lia.
Qed.

Lemma one_or_more_in_text t : matches_in_text (one_or_more cls) t.
Proof.
  unfold matches_in_text, finditer, one_or_more.
  eapply Forall_impl; [|apply (runs_from_bounds t 0 None 0)].
  - cbn beta. intros m Hm. lia.
  - lia.
  - discriminate.
Qed.

(** A run that is open when the scan starts is the first one reported. *)
Lemma runs_from_open_head t :
  forall i a, exists m rest,
    runs_from cls t i (Some a) = m :: rest /\ start m = a.
Proof.
  induction t as [|c t IH]; intros i a; cbn [runs_from].
  - eexists. eexists. split; reflexivity.
  - destruct (cls c); [apply IH|].
    eexists. eexists. split; reflexivity.
Qed.

(** The first run found from offset [j] on starts after the longest prefix
    without a character of the class; without any run that is the end of the
    text. *)
Lemma runs_from_first post :
  forall j,
    nth 0 (map start (runs_from cls post j None)) (j + Py.len post)
    = j + Py.len (take_while (fun c => negb (cls c)) post).
Proof.
  induction post as [|c post IH]; intros j; cbn [runs_from take_while].
  - reflexivity.
  - destruct (cls c) eqn:Hc; cbn [negb].
    + destruct (runs_from_open_head post (j + 1) j) as (m & rest & -> & Hm).
      cbn. rewrite Hm. unfold Py.len. cbn. lia.
    + rewrite !len_cons.
      replace (j + (Py.len post + 1)) with (j + 1 + Py.len post) by lia.
      rewrite IH. lia.
Qed.

(** Scanning past a character outside the class: the runs before it are
    closed by then, and the scan goes on afresh behind it. *)
Lemma runs_from_split pre c post :
  cls c = false ->
  forall i opened,
    (forall a, opened = Some a -> a <= i) ->
    exists front,
      runs_from cls (pre ++ c :: post) i opened
      = front ++ runs_from cls post (i + Py.len pre + 1) None
      /\ Forall (fun m => start m <= i + Py.len pre) front.
Proof.
  intros Hc. induction pre as [|x pre IH]; intros i opened Hop.
  - cbn [app runs_from]. rewrite Hc.
    change (Py.len (@nil ascii)) with 0. rewrite Z.add_0_r.
    destruct opened as [a|].
    + exists [mkMatch a i]. split; [reflexivity|].
      constructor; [|constructor]. cbn. now apply Hop.
    + exists []. split; [reflexivity | constructor].
  - cbn [app runs_from]. rewrite len_cons.
    replace (i + (Py.len pre + 1) + 1) with (i + 1 + Py.len pre + 1) by lia.
    pose proof (len_nonneg pre) as Hpre.
    destruct (cls x).
    + destruct (IH (i + 1)
                   (Some (match opened with Some a => a | None => i end)))
        as (front & Heq & Hfront).
      { intros a Ha. injection Ha as <-.
        destruct opened as [a0|]; [specialize (Hop a0 eq_refl)|]; lia. }
      exists front. split; [exact Heq|].
      eapply Forall_impl; [|exact Hfront]. cbn beta. intros m Hm. lia.
    + destruct (IH (i + 1) None) as (front & Heq & Hfront);
        [discriminate|].
      assert (Hfront' : Forall (fun m => start m <= i + (Py.len pre + 1))
                               front)
        by (eapply Forall_impl; [|exact Hfront]; cbn beta; intros m Hm;
            lia).
      destruct opened as [a|].
      * exists (mkMatch a i :: front). rewrite Heq.
        split; [reflexivity|]. constructor; [|exact Hfront'].
        cbn. specialize (Hop a eq_refl). lia.
      * exists front. split; [exact Heq | exact Hfront'].
Qed.

Lemma take_while_stop {A : Type} (keep : A -> bool) (l : list A) :
  take_while keep (skipn (length (take_while keep l)) l) = [].
Proof.
  induction l as [|x l IH]; cbn [take_while]; [reflexivity|].
  destruct (keep x) eqn:Hx; cbn [length skipn take_while].
  - exact IH.
  - now rewrite Hx.
Qed.
End RunsFacts.

(** ** Movement commands *)

Section MovementExtras.
Import Buff BuffSpec State Re BasicEditing Commands MoveSpec CommandSpec.
Implicit Types (st : Ihmacs) (re : Pattern) (n : Z) (depth : nat).


(** The offsets after point that the newline pattern reports, when the
    character at point is no newline. *)
Lemma newline_starts_after (b : Buffer) pre c post :
  text b = pre ++ c :: post ->
  Py.len pre = point b ->
  Ascii.eqb c "010"%char = false ->
  starts_after newline_regex b
  = map start (runs_from (fun c => Ascii.eqb c "010"%char) post
                         (point b + 1) None).
Proof.
  intros Ht Hlen Hc. unfold starts_after, finditer, newline_regex,
    one_or_more. rewrite Ht.
  destruct (runs_from_split (fun c => Ascii.eqb c "010"%char) pre c post
                            Hc 0 None) as (front & -> & Hfront);
    [discriminate|].
  rewrite Z.add_0_l, Hlen in *. rewrite map_app, filter_app.
  assert (H1 : filter (fun x => point b <? x) (map start front) = []).
  { induction Hfront as [|m front Hm _ IH]; [reflexivity|].
    cbn. destruct (Z.ltb_spec (point b) (start m)); [lia | exact IH]. }
  rewrite H1. cbn [app].
  pose proof (runs_from_bounds (fun c => Ascii.eqb c "010"%char) post
                (point b + 1) None (point b + 1) (Z.le_refl _)) as Hb.
  specialize (Hb ltac:(discriminate)).
  induction Hb as [|m l Hm _ IH]; [reflexivity|].
  cbn. destruct (Z.ltb_spec (point b) (start m)); [|lia]. now rewrite IH.
Qed.

(** [move_end_of_line] puts point at the end of its line: it moves point
    forward over the characters up to, and not including, the next newline,
    or to the end of the text when no newline follows.  It changes nothing
    else, and a second call changes nothing at all. *)
Theorem move_end_of_line_spec depth st :
  (2 <= depth)%nat ->
  point_in_bounds (active_buff st) ->
  let b := active_buff st in
  let st' := moved_to st (point b + Py.len (rest_of_line b)) in
  move_end_of_line depth st = Some st'
  /\ move_end_of_line depth st' = Some st'.
Proof.
  assert (Hone : forall d st0,
             point_in_bounds (active_buff st0) ->
             move_end_of_line (S (S d)) st0
             = Some (moved_to st0 (point (active_buff st0)
                                   + Py.len (rest_of_line (active_buff st0))))).
  { intros d st0 Hp. set (b := active_buff st0).
    pose proof Hp as Hp'. unfold point_in_bounds in Hp'. fold b in Hp'.
    unfold move_end_of_line. cbv zeta. fold b.
    rewrite index_from_front by lia. unfold rest_of_line.
    destruct (nth_error (text b) (Z.to_nat (point b))) as [c|] eqn:Hnth.
    - apply nth_error_split in Hnth as (pre & post & Ht & Hlen).
      assert (Hpre : Py.len pre = point b) by (unfold Py.len; lia).
      assert (Hskip : skipn (Z.to_nat (point b)) (text b) = c :: post).
      { rewrite Ht, <- Hlen, skipn_app, skipn_all, Nat.sub_diag.
        reflexivity. }
      rewrite Hskip. cbn [take_while]. unfold not_newline at 1.
      destruct (Ascii.eqb c "010"%char) eqn:Hc; cbn [negb].
      + change (Py.len (@nil ascii)) with 0. rewrite Z.add_0_r.
        now rewrite moved_to_point.
      + rewrite forward_positive
          by (try lia; apply one_or_more_in_text).
        fold b. unfold nth_or. cbn [Z.sub Z.to_nat Z.pos_sub].
        rewrite (newline_starts_after b pre c post Ht Hpre Hc).
        replace (Py.len (text b)) with (point b + 1 + Py.len post)
          by (rewrite Ht, len_app, len_cons; lia).
        rewrite runs_from_first, len_cons.
        do 2 f_equal. unfold not_newline. lia.
    - apply nth_error_None in Hnth.
      rewrite Ascii.eqb_refl, skipn_all2 by exact Hnth.
      cbn [take_while]. change (Py.len (@nil ascii)) with 0.
      rewrite Z.add_0_r. now rewrite moved_to_point. }
  intros Hd Hp b st'. destruct depth as [|[|d]]; [lia | lia |].
  split; [apply Hone, Hp|].
  pose proof Hp as Hp'. unfold point_in_bounds in Hp'. fold b in Hp'.
  assert (Hk : Py.len (rest_of_line b) <= Py.len (text b) - point b).
  { unfold rest_of_line. rewrite <- len_skipn by lia.
    generalize (skipn (Z.to_nat (point b)) (text b)). intros l.
    induction l as [|x l IH]; cbn [take_while]; [lia|].
    destruct (not_newline x); rewrite ?len_cons;
      [lia | pose proof (len_nonneg l); unfold Py.len at 1; cbn; lia]. }
  pose proof (len_nonneg (rest_of_line b)) as Hk0.
  rewrite Hone by (unfold st', point_in_bounds; cbn; fold b; lia).
  f_equal. unfold st'. rewrite moved_to_moved_to. f_equal.
  cbn [moved_to active_buff with_active_buff point with_point].
  fold b. unfold rest_of_line at 2. cbn [point text with_point].
  replace (Z.to_nat (point b + Py.len (rest_of_line b)))
    with (length (rest_of_line b) + Z.to_nat (point b))%nat
    by (unfold Py.len; lia).
  rewrite <- skipn_skipn. unfold rest_of_line.
  rewrite take_while_stop. change (Py.len (@nil ascii)) with 0. lia.
Qed.

Lemma move_end_of_line_spec_witness :
  move_end_of_line 2 (ViewSpec.editor two_lines 24)
  = Some (moved_to (ViewSpec.editor two_lines 24) 5)
  /\ move_end_of_line 2 (moved_to (ViewSpec.editor two_lines 24) 6)
     = Some (moved_to (ViewSpec.editor two_lines 24) 8).
Proof.
  split.
  - apply (move_end_of_line_spec 2 (ViewSpec.editor two_lines 24));
      [lia | hnf; cbn; lia].
  - apply (move_end_of_line_spec
             2 (moved_to (ViewSpec.editor two_lines 24) 6));
      [lia | hnf; cbn; lia].
Defined.

Lemma set_point_only_moves st pos :
  only_moves_point st (with_active_buff st (set_point (active_buff st) pos)).
Proof.
  rewrite set_point_moved_to. eexists. split; [|reflexivity].
  apply clamp_range, len_nonneg.
Qed.

Lemma by_delimiter_only_moves depth :
  forall st re n st',
    point_in_bounds (active_buff st) ->
    (forward_by_delimiter depth st re n = Some st' ->
     only_moves_point st st')
    /\ (backward_by_delimiter depth st re n = Some st' ->
        only_moves_point st st').
Proof.
  induction depth as [|depth IH]; intros st re n st' Hp;
    [split; discriminate|].
  cbn [forward_by_delimiter backward_by_delimiter].
  assert (Hsame : only_moves_point st st).
  { exists (point (active_buff st)). split; [exact Hp|].
    symmetry. apply moved_to_point. }
  destruct (n =? 0).
  - split; intros H; injection H as <-; exact Hsame.
  - destruct (n <? 0).
    + destruct (IH st re (- n) st' Hp) as [IHf IHb].
      split; intros H; [now apply IHb | now apply IHf].
    + split; intros H; injection H as <-; apply set_point_only_moves.
Qed.

(** The movement commands move point and nothing else: after
    [forward_char], [backward_char], [forward_by_delimiter],
    [backward_by_delimiter] (with any pattern, whatever spans it reports)
    and [move_end_of_line], the text, the mark and every other part of the
    editor are as before, and point is still inside the text. *)
Theorem movement_only_moves_point depth st re n :
  point_in_bounds (active_buff st) ->
  only_moves_point st (forward_char st n)
  /\ only_moves_point st (backward_char st n)
  /\ (forall st', forward_by_delimiter depth st re n = Some st' ->
                  only_moves_point st st')
  /\ (forall st', backward_by_delimiter depth st re n = Some st' ->
                  only_moves_point st st')
  /\ (forall st', move_end_of_line depth st = Some st' ->
                  only_moves_point st st').
Proof.
  intros Hp.
  split; [apply set_point_only_moves|].
  split; [apply set_point_only_moves|].
  split; [intros st'; now apply by_delimiter_only_moves|].
  split; [intros st'; now apply by_delimiter_only_moves|].
  intros st'. destruct depth as [|depth]; [discriminate|].
  cbn [move_end_of_line].
  destruct (Ascii.eqb _ "010"%char).
  - intros H. injection H as <-.
    exists (point (active_buff st)). split; [exact Hp|].
    symmetry. apply moved_to_point.
  - now apply by_delimiter_only_moves.
Qed.

Lemma movement_only_moves_point_witness :
  only_moves_point (ViewSpec.editor hello_world 24)
                   (forward_char (ViewSpec.editor hello_world 24) 100)
  /\ exists st',
       backward_by_delimiter 2 (ViewSpec.editor hello_world 24)
                             (fun _ => [mkMatch (-7) 3; mkMatch 40 2]) 1
       = Some st'
       /\ only_moves_point (ViewSpec.editor hello_world 24) st'.
Proof.
  destruct (movement_only_moves_point
              2 (ViewSpec.editor hello_world 24)
              (fun _ => [mkMatch (-7) 3; mkMatch 40 2]) 1)
    as (_ & _ & _ & Hb & _); [hnf; cbn; lia|].
  split.
  - destruct (movement_only_moves_point
                2 (ViewSpec.editor hello_world 24)
                (fun _ => [mkMatch (-7) 3; mkMatch 40 2]) 100)
      as (Hf & _); [hnf; cbn; lia | exact Hf].
  - eexists. split; [reflexivity|]. apply Hb. reflexivity.
Defined.


End MovementExtras.
